(** * Slack MCP gateway (src/index.ts): directory cache, target resolution,
    tool handlers and CSV rendering, embedded as Rocq functions.

    Strings are [string]; JSON numbers are integers in [Z]; a JS [Map] is an
    insertion-ordered association list; thrown [Error]s are the [Throw]
    outcome carrying the message; calls to the Slack API are answered from a
    script of responses and recorded in a log. *)

From Stdlib Require Import ZArith String Ascii List Bool Lia DecimalString DecimalZ.
Import ListNotations.
Open Scope string_scope.

(** ** JavaScript string and number primitives used by the source *)

Module Js.

(** The double-quote character, code 34. *)
Definition dquote : ascii := "034"%char.
Definition comma : ascii := ","%char.
Definition hash : ascii := "#"%char.

(** [s.startsWith(p)] *)
Definition startsWith (s p : string) : bool := String.prefix p s.

(** [s.endsWith(p)] *)
Definition endsWith (s p : string) : bool :=
  let n := String.length s in
  let m := String.length p in
  if Nat.leb m n then String.eqb (String.substring (n - m) m s) p else false.

(** [s.includes(sub)] on strings *)
Definition includes (s sub : string) : bool :=
  match String.index 0 sub s with Some _ => true | None => false end.

(** [arr.includes(x)] on arrays of strings *)
Definition arrayIncludes (arr : list string) (x : string) : bool :=
  existsb (String.eqb x) arr.

(** [s.split(sep)] for a one-character separator *)
Fixpoint split (sep : ascii) (s : string) : list string :=
  match s with
  | EmptyString => [EmptyString]
  | String c r =>
      if Ascii.eqb c sep then EmptyString :: split sep r
      else match split sep r with
           | h :: t => String c h :: t
           | [] => [String c EmptyString]
           end
  end.

(** [arr.join(sep)] *)
Definition join (sep : string) (arr : list string) : string :=
  String.concat sep arr.

(** [s.replace(/c/g, rep)]: every occurrence of the character *)
Fixpoint replaceAll (c : ascii) (rep : string) (s : string) : string :=
  match s with
  | EmptyString => EmptyString
  | String a r =>
      if Ascii.eqb a c then rep ++ replaceAll c rep r
      else String a (replaceAll c rep r)
  end.

(** [s.replace(c, rep)] with a string pattern: the first occurrence only *)
Fixpoint replaceFirst (c : ascii) (rep : string) (s : string) : string :=
  match s with
  | EmptyString => EmptyString
  | String a r =>
      if Ascii.eqb a c then rep ++ r else String a (replaceFirst c rep r)
  end.

(** [s.substring(1)] *)
Definition substring1 (s : string) : string :=
  match s with EmptyString => EmptyString | String _ r => r end.

(** Truthiness of a string: only the empty string is falsy. *)
Definition truthy (s : string) : bool := negb (String.eqb s "").

(** [o || d] for a possibly undefined string [o] *)
Definition strOr (o : option string) (d : string) : string :=
  match o with
  | Some s => if truthy s then s else d
  | None => d
  end.

(** [o || d] for a possibly undefined number [o]: 0 is falsy *)
Definition numOr (o : option Z) (d : Z) : Z :=
  match o with
  | Some n => if Z.eqb n 0 then d else n
  | None => d
  end.

(** [o || false] for a possibly undefined boolean *)
Definition boolOr (o : option bool) : bool :=
  match o with Some b => b | None => false end.

(** A number inside a template literal. The digits are those JavaScript
    prints for an integer a double holds exactly, of magnitude up to 2^53;
    larger values and fractions are outside this rendering. *)
Definition numToString (n : Z) : string :=
  NilEmpty.string_of_int (Z.to_int n).

(** A possibly undefined string inside a template literal. *)
Definition show (o : option string) : string :=
  match o with Some s => s | None => "undefined" end.

End Js.

(** ** JS [Map] with string keys: insertion-ordered, [set] on a present key
    replaces the value in place, on an absent key appends. *)

Section JsMap.
Context {V : Type}.

Definition JsMap := list (string * V).

Fixpoint map_get (k : string) (m : JsMap) : option V :=
  match m with
  | [] => None
  | (k', v) :: r => if String.eqb k' k then Some v else map_get k r
  end.

Fixpoint map_set (k : string) (v : V) (m : JsMap) : JsMap :=
  match m with
  | [] => [(k, v)]
  | (k', v') :: r =>
      if String.eqb k' k then (k, v) :: r else (k', v') :: map_set k v r
  end.

Definition map_values (m : JsMap) : list V := List.map snd m.
Definition map_keys (m : JsMap) : list string := List.map fst m.
Definition map_size (m : JsMap) : nat := List.length m.

End JsMap.
Arguments JsMap V : clear implicits.

(** ** Types of the source *)

Record Channel := mkChannel {
  id : string;
  name : string;
  is_private : bool;
  is_im : bool;
  is_mpim : bool;
  topic : option string;
  purpose : option string;
  num_members : option Z
}.

Record User := mkUser {
  user_id : string;
  user_name : string;
  real_name : string
}.

(** The four tables and the workspace label held by [SlackMcpServer]. *)
Record Cache := mkCache {
  channelsById : JsMap Channel;
  channelsByName : JsMap Channel;
  usersById : JsMap User;
  usersByName : JsMap User;
  workspace : string
}.

Definition empty_cache : Cache := mkCache [] [] [] [] "".

(** [channel.is_im || channel.is_mpim] *)
Definition dm_flag (ch : Channel) : bool := is_im ch || is_mpim ch.

(** ** Outcomes: a returned value, a thrown [Error] with its message, or a
    call still waiting because the script of responses ran out. *)

Inductive Outcome (A : Type) : Type :=
| Ret (a : A)
| Throw (msg : string)
| Starved.
Arguments Ret {A} a.
Arguments Throw {A} msg.
Arguments Starved {A}.

(** ** Security: classification and target resolution *)

Module Msg.
Definition dm_at : string :=
  "Direct messages (@username) are not accessible for security reasons".
Definition dm_id : string :=
  "Direct messages (D...) are not accessible for security reasons".
Definition dm_cached : string :=
  "Direct messages are not accessible for security reasons".
Definition not_found (input : string) : string :=
  "Channel " ++ input ++ " not found".
Definition posting_disabled : string :=
  "Message posting is disabled. Set SLACK_MCP_ADD_MESSAGE_TOOL=true or to a list of channel IDs.".
Definition not_allowed (channelId : string) : string :=
  "Posting to channel " ++ channelId ++ " is not allowed.".
Definition unknown_tool (name : string) : string := "Unknown tool: " ++ name.
Definition unknown_resource (uri : string) : string :=
  "Unknown resource: " ++ uri.
Definition api_error (code : option string) : string :=
  "Slack API error: " ++ Js.show code.
(** Reading a property of [undefined] raises a TypeError with this text. *)
Definition type_error (prop : string) : string :=
  "Cannot read properties of undefined (reading '" ++ prop ++ "')".
End Msg.

(** [channel?.is_im || channel?.is_mpim] on the result of a table lookup *)
Definition lookup_flagged (o : option Channel) : bool :=
  match o with Some ch => dm_flag ch | None => false end.

(** [isBlockedChannel(channelId, channelName?)] *)
Definition isBlockedChannel (c : Cache) (channelId : string)
    (channelName : option string) : bool :=
  if match channelName with
     | Some n => Js.startsWith n "@"
     | None => false
     end then true
  else if Js.startsWith channelId "D" then true
  else if lookup_flagged (map_get channelId (channelsById c)) then true
  else false.

(** [resolveChannelId(input)] *)
Definition resolveChannelId (c : Cache) (input : string) : Outcome string :=
  if Js.startsWith input "@" then Throw Msg.dm_at
  else if Js.startsWith input "D" then Throw Msg.dm_id
  else if Js.startsWith input "#" then
    match map_get input (channelsByName c) with
    | None => Throw (Msg.not_found input)
    | Some channel =>
        if dm_flag channel then Throw Msg.dm_cached else Ret (id channel)
    end
  else
    match map_get input (channelsById c) with
    | Some channel =>
        if dm_flag channel then Throw Msg.dm_cached else Ret input
    | None => Ret input
    end.

(** [resolveChannelId(args.channel_id)] where the argument may be missing:
    [input.startsWith] on [undefined] raises a TypeError. *)
Definition resolveChannelArg (c : Cache) (o : option string) : Outcome string :=
  match o with
  | Some input => resolveChannelId c input
  | None => Throw (Msg.type_error "startsWith")
  end.

(** [getUserName(userId)]: [user?.real_name || user?.name || userId] *)
Definition getUserName (c : Cache) (userId : string) : string :=
  match map_get userId (usersById c) with
  | Some user =>
      if Js.truthy (real_name user) then real_name user
      else if Js.truthy (user_name user) then user_name user
      else userId
  | None => userId
  end.

(** ** The Slack API as seen by the gateway *)

(** Records of the JSON replies, with the fields the source reads. *)
Record RawChannel := mkRawChannel {
  ch_id : string;
  ch_name : string;
  ch_is_private : option bool;
  ch_is_im : option bool;
  ch_is_mpim : option bool;
  ch_topic : option string;
  ch_purpose : option string;
  ch_num_members : option Z
}.

Record RawUser := mkRawUser {
  u_id : string;
  u_name : string;
  u_deleted : option bool;
  u_is_bot : option bool;
  u_real_name : option string
}.

Record RawReaction := mkRawReaction { r_name : string; r_count : Z }.

Record RawMessage := mkRawMessage {
  m_ts : string;
  m_user : option string;
  m_text : option string;
  m_thread_ts : option string;
  m_reactions : option (list RawReaction)
}.

(** A search match. [s_channel_id] is the id of the conversation the match
    was found in ([m.channel.id] of the reply); the source never reads it. *)
Record RawMatch := mkRawMatch {
  s_ts : string;
  s_channel_id : option string;
  s_channel_name : option string;
  s_user : option string;
  s_username : option string;
  s_text : option string
}.

Record ApiData := mkApiData {
  ok : bool;
  error : option string;
  team : option string;
  channels : option (list RawChannel);
  members : option (list RawUser);
  next_cursor : option string;
  messages : option (list RawMessage);
  has_more : bool;
  matches : option (list RawMatch);
  post_ts : option string;
  post_channel : option string
}.

(** What [http.post] gives back: a rejected promise or a response body. *)
Inductive HttpResult :=
| HttpFail (msg : string)
| HttpReply (data : ApiData).

(** The calls [slackApi(method, params)] the source makes. *)
Inductive Call :=
| AuthTest
| ConversationsList (types : string) (limit : Z) (cursor : option string)
| UsersList (limit : Z) (cursor : option string)
| ConversationsHistory (channel : string) (limit : Z) (cursor : option string)
| ConversationsReplies (channel : string) (ts : option string) (limit : Z)
    (cursor : option string)
| SearchMessages (query : option string) (count : Z)
| ChatPostMessage (channel : string) (text : option string)
    (thread_ts : option string).

(** The channel a call is aimed at, when it names one. *)
Definition call_channel (k : Call) : option string :=
  match k with
  | ConversationsHistory ch _ _ => Some ch
  | ConversationsReplies ch _ _ _ => Some ch
  | ChatPostMessage ch _ _ => Some ch
  | _ => None
  end.

(** The remote side: the responses still to come, and the calls made. *)
Record World := mkWorld { script : list HttpResult; log : list Call }.

Definition M (A : Type) : Type := World -> Outcome A * World.

Definition ret {A} (a : A) : M A := fun w => (Ret a, w).
Definition throw {A} (msg : string) : M A := fun w => (Throw msg, w).
Definition bind {A B} (m : M A) (k : A -> M B) : M B :=
  fun w =>
    match m w with
    | (Ret a, w') => k a w'
    | (Throw msg, w') => (Throw msg, w')
    | (Starved, w') => (Starved, w')
    end.
Definition lift {A} (o : Outcome A) : M A := fun w => (o, w).

Notation "x <- m ;; k" := (bind m (fun x => k))
  (at level 61, m at next level, right associativity).

(** The body of [slackApi] after the response arrived. *)
Definition slackApiReply (r : HttpResult) : Outcome ApiData :=
  match r with
  | HttpFail msg => Throw msg
  | HttpReply data =>
      if ok data then Ret data else Throw (Msg.api_error (error data))
  end.

(** [slackApi(method, params)]: the call is sent, the next scripted response
    answers it. *)
Definition slackApi (k : Call) : M ApiData :=
  fun w =>
    match script w with
    | [] => (Starved, mkWorld [] (log w ++ [k]))
    | r :: rest => (slackApiReply r, mkWorld rest (log w ++ [k]))
    end.

(** ** Cache build ([loadCache]) *)

(** The body of the channel loop: build the [Channel], set it in both tables. *)
Definition toChannel (ch : RawChannel) : Channel :=
  mkChannel (ch_id ch) ("#" ++ ch_name ch)
            (Js.boolOr (ch_is_private ch)) (Js.boolOr (ch_is_im ch))
            (Js.boolOr (ch_is_mpim ch))
            (ch_topic ch) (ch_purpose ch) (ch_num_members ch).

Definition storeChannel (c : Cache) (ch : RawChannel) : Cache :=
  let channel := toChannel ch in
  mkCache (map_set (id channel) channel (channelsById c))
          (map_set (name channel) channel (channelsByName c))
          (usersById c) (usersByName c) (workspace c).

(** The body of the user loop: deleted and bot accounts are skipped. *)
Definition toUser (u : RawUser) : User :=
  mkUser (u_id u) (u_name u) (Js.strOr (u_real_name u) (u_name u)).

Definition skippedUser (u : RawUser) : bool :=
  Js.boolOr (u_deleted u) || Js.boolOr (u_is_bot u).

Definition storeUser (c : Cache) (u : RawUser) : Cache :=
  if skippedUser u then c
  else
    let user := toUser u in
    mkCache (channelsById c) (channelsByName c)
            (map_set (user_id user) user (usersById c))
            (map_set ("@" ++ user_name user) user (usersByName c))
            (workspace c).

Definition listOr {A} (o : option (list A)) : list A :=
  match o with Some l => l | None => [] end.

(** [while (cursor)]: the cursor to continue with, if it is truthy. *)
Definition continueWith (cur : option string) : option string :=
  match cur with
  | Some s => if Js.truthy s then Some s else None
  | None => None
  end.

(** The channel [do ... while (cursor)] loop. Every iteration consumes one
    scripted response, so the loop is a recursion on the script. *)
Fixpoint loadChannelPages (sc : list HttpResult) (cursor : option string)
    (lg : list Call) (c : Cache) : Outcome Cache * World :=
  let k := ConversationsList "public_channel,private_channel" 1000 cursor in
  match sc with
  | [] => (Starved, mkWorld [] (lg ++ [k]))
  | r :: rest =>
      match slackApiReply r with
      | Ret result =>
          let c' := fold_left storeChannel (listOr (channels result)) c in
          match continueWith (next_cursor result) with
          | Some cur => loadChannelPages rest (Some cur) (lg ++ [k]) c'
          | None => (Ret c', mkWorld rest (lg ++ [k]))
          end
      | Throw msg => (Throw msg, mkWorld rest (lg ++ [k]))
      | Starved => (Starved, mkWorld rest (lg ++ [k]))
      end
  end.

(** The user [do ... while (cursor)] loop. *)
Fixpoint loadUserPages (sc : list HttpResult) (cursor : option string)
    (lg : list Call) (c : Cache) : Outcome Cache * World :=
  let k := UsersList 1000 cursor in
  match sc with
  | [] => (Starved, mkWorld [] (lg ++ [k]))
  | r :: rest =>
      match slackApiReply r with
      | Ret result =>
          let c' := fold_left storeUser (listOr (members result)) c in
          match continueWith (next_cursor result) with
          | Some cur => loadUserPages rest (Some cur) (lg ++ [k]) c'
          | None => (Ret c', mkWorld rest (lg ++ [k]))
          end
      | Throw msg => (Throw msg, mkWorld rest (lg ++ [k]))
      | Starved => (Starved, mkWorld rest (lg ++ [k]))
      end
  end.

Definition loadChannels (c : Cache) : M Cache :=
  fun w => loadChannelPages (script w) None (log w) c.

Definition loadUsers (c : Cache) : M Cache :=
  fun w => loadUserPages (script w) None (log w) c.

(** [loadCache()], run on the tables [c] held so far. *)
Definition loadCache (c : Cache) : M Cache :=
  authTest <- slackApi AuthTest ;;
  let c0 := mkCache (channelsById c) (channelsByName c) (usersById c)
                    (usersByName c) (Js.strOr (team authTest) "workspace") in
  c1 <- loadChannels c0 ;;
  loadUsers c1.

(** [start()] calls [loadCache] once, on the empty tables. *)
Definition buildCache (sc : list HttpResult) : Outcome Cache * World :=
  loadCache empty_cache (mkWorld sc []).

(** ** Post configuration, read from SLACK_MCP_ADD_MESSAGE_TOOL *)

Record Config := mkConfig {
  ADD_MESSAGE_ENABLED : bool;
  ALLOWED_CHANNELS : option (list string)
}.

Definition configOfEnv (env : option string) : Config :=
  mkConfig
    (match env with
     | Some v => String.eqb v "true" || String.eqb v "1"
     | None => false
     end)
    (match env with
     | Some v => if Js.startsWith v "C" then Some (Js.split Js.comma v) else None
     | None => None
     end).

(** ** Tool arguments: every property may be missing. The limit is the
    number the tool schema declares, taken as an integer: a request whose
    limit is not a number (for which [Math.min] gives NaN) or is a fraction
    is outside this record. *)

Record ToolArgs := mkToolArgs {
  a_types : option string;
  a_limit : option Z;
  a_channel_id : option string;
  a_cursor : option string;
  a_thread_ts : option string;
  a_query : option string;
  a_channel : option string;
  a_from_user : option string;
  a_text : option string
}.

(** [args?.p]: the argument bag itself may be undefined. *)
Definition optArg {A} (args : option ToolArgs) (p : ToolArgs -> option A)
    : option A :=
  match args with Some a => p a | None => None end.

(** ** CSV rendering *)

Definition dq : string := String Js.dquote EmptyString.
Definition nl : string := String "010"%char EmptyString.

(** A free-text field: the value or the empty string, every double quote
    replaced by two (the regex replace with the g flag), between quotes. *)
Definition csvEscape (s : string) : string := Js.replaceAll Js.dquote (dq ++ dq) s.
Definition csvText (s : string) : string := dq ++ csvEscape s ++ dq.
Definition csvTextField (o : option string) : string := csvText (Js.strOr o "").

(** A field put between quotes as it is. *)
Definition quoted (s : string) : string := dq ++ s ++ dq.

Definition channelRow (c : Channel) : string :=
  id c ++ "," ++ name c ++ "," ++ csvTextField (topic c) ++ ","
  ++ csvTextField (purpose c) ++ "," ++ Js.numToString (Js.numOr (num_members c) 0).

Definition channelsCsv (chans : list Channel) : string :=
  Js.join nl ("id,name,topic,purpose,members" :: List.map channelRow chans).

(** ** Tool handlers *)

(** [handleChannelsList]: the requested types, reduced to the two allowed. *)
Definition requestedTypes (args : option ToolArgs) : string :=
  Js.join ","
    (List.filter
       (fun t => String.eqb t "public_channel" || String.eqb t "private_channel")
       (Js.split Js.comma
          (Js.strOr (optArg args a_types) "public_channel,private_channel"))).

Definition listLimit (args : option ToolArgs) : Z :=
  Z.min (Js.numOr (optArg args a_limit) 100) 1000.

(** The [for ... of this.channelsById] loop: [pending] are the entries still
    to visit, [acc] the array [channels] so far. *)
Fixpoint selectChannels (types : string) (limit : Z) (pending : list Channel)
    (acc : list Channel) : list Channel :=
  match pending with
  | [] => acc
  | channel :: rest =>
      if dm_flag channel then selectChannels types limit rest acc
      else
        let acc' :=
          if Js.includes types "public_channel" && negb (is_private channel)
          then (acc ++ [channel])%list
          else if Js.includes types "private_channel" && is_private channel
          then (acc ++ [channel])%list
          else acc in
        if Z.geb (Z.of_nat (List.length acc')) limit then acc'
        else selectChannels types limit rest acc'
  end.

Definition listedChannels (c : Cache) (args : option ToolArgs) : list Channel :=
  selectChannels (requestedTypes args) (listLimit args)
                 (map_values (channelsById c)) [].

Definition handleChannelsList (c : Cache) (args : option ToolArgs) : M string :=
  ret (channelsCsv (listedChannels c args)).

(** The argument bag is dereferenced without [?.]: undefined [args] raises. *)
Definition needArgs (args : option ToolArgs) (prop : string) : M ToolArgs :=
  match args with
  | Some a => ret a
  | None => throw (Msg.type_error prop)
  end.

(** Replace the last element of an array, if there is one. *)
Fixpoint updateLast {A} (f : A -> A) (l : list A) : list A :=
  match l with
  | [] => []
  | [x] => [f x]
  | x :: r => x :: updateLast f r
  end.

Record HistoryMsg := mkHistoryMsg {
  h_ts : string;
  h_user : string;
  h_text : option string;
  h_thread_ts : option string;
  h_reactions : option string;
  h_cursor : string
}.

Definition reactionText (r : RawReaction) : string :=
  r_name r ++ ":" ++ Js.numToString (r_count r).

Definition historyMsg (c : Cache) (m : RawMessage) : HistoryMsg :=
  mkHistoryMsg (m_ts m) (getUserName c (Js.strOr (m_user m) "")) (m_text m)
    (m_thread_ts m)
    (option_map (fun rs => Js.join "|" (List.map reactionText rs)) (m_reactions m))
    "".

Definition historyRow (m : HistoryMsg) : string :=
  h_ts m ++ "," ++ quoted (h_user m) ++ "," ++ csvTextField (h_text m) ++ ","
  ++ Js.strOr (h_thread_ts m) "" ++ "," ++ quoted (Js.strOr (h_reactions m) "")
  ++ "," ++ h_cursor m.

Definition historyMessages (c : Cache) (result : ApiData) : list HistoryMsg :=
  let msgs := List.map (historyMsg c) (listOr (messages result)) in
  if Nat.ltb 0 (List.length msgs) && has_more result
  then updateLast
         (fun m => mkHistoryMsg (h_ts m) (h_user m) (h_text m) (h_thread_ts m)
                     (h_reactions m) (Js.strOr (next_cursor result) ""))
         msgs
  else msgs.

Definition historyCsv (rows : list HistoryMsg) : string :=
  Js.join nl ("ts,user,text,thread_ts,reactions,cursor" :: List.map historyRow rows).

Definition pageLimit (a : ToolArgs) : Z := Z.min (Js.numOr (a_limit a) 50) 100.

Definition handleConversationsHistory (c : Cache) (args : option ToolArgs)
    : M string :=
  a <- needArgs args "channel_id" ;;
  channelId <- lift (resolveChannelArg c (a_channel_id a)) ;;
  result <- slackApi (ConversationsHistory channelId (pageLimit a) (a_cursor a)) ;;
  ret (historyCsv (historyMessages c result)).

Record ReplyMsg := mkReplyMsg {
  p_ts : string;
  p_user : string;
  p_text : option string;
  p_cursor : string
}.

Definition replyMsg (c : Cache) (m : RawMessage) : ReplyMsg :=
  mkReplyMsg (m_ts m) (getUserName c (Js.strOr (m_user m) "")) (m_text m) "".

Definition replyRow (m : ReplyMsg) : string :=
  p_ts m ++ "," ++ quoted (p_user m) ++ "," ++ csvTextField (p_text m) ++ ","
  ++ p_cursor m.

Definition replyMessages (c : Cache) (result : ApiData) : list ReplyMsg :=
  let msgs := List.map (replyMsg c) (listOr (messages result)) in
  if Nat.ltb 0 (List.length msgs) && has_more result
  then updateLast
         (fun m => mkReplyMsg (p_ts m) (p_user m) (p_text m)
                     (Js.strOr (next_cursor result) ""))
         msgs
  else msgs.

Definition repliesCsv (rows : list ReplyMsg) : string :=
  Js.join nl ("ts,user,text,cursor" :: List.map replyRow rows).

Definition handleConversationsReplies (c : Cache) (args : option ToolArgs)
    : M string :=
  a <- needArgs args "channel_id" ;;
  channelId <- lift (resolveChannelArg c (a_channel_id a)) ;;
  result <- slackApi (ConversationsReplies channelId (a_thread_ts a)
                        (pageLimit a) (a_cursor a)) ;;
  ret (repliesCsv (replyMessages c result)).

(** [query += suffix]: an undefined query is rendered by the concatenation. *)
Definition appendQuery (query : option string) (suffix : string) : option string :=
  Some (Js.show query ++ suffix).

(** The channel filter of the search: only a truthy [args.channel] is one. *)
Definition searchChannelClause (c : Cache) (a : ToolArgs) (query : option string)
    : Outcome (option string) :=
  match a_channel a with
  | Some ch =>
      if Js.truthy ch then
        match resolveChannelId c ch with
        | Ret channelId =>
            match map_get channelId (channelsById c) with
            | Some channel =>
                Ret (appendQuery query
                       (" in:" ++ Js.replaceFirst Js.hash "" (name channel)))
            | None => Ret query
            end
        | Throw msg => Throw msg
        | Starved => Starved
        end
      else Ret query
  | None => Ret query
  end.

Definition searchUserClause (c : Cache) (a : ToolArgs) (query : option string)
    : option string :=
  match a_from_user a with
  | Some u =>
      if Js.truthy u then
        let userName :=
          if Js.startsWith u "@" then Js.substring1 u
          else Js.strOr (option_map user_name (map_get u (usersById c))) u in
        appendQuery query (" from:" ++ userName)
      else query
  | None => query
  end.

Record MatchMsg := mkMatchMsg {
  x_ts : string;
  x_channel : string;
  x_user : string;
  x_text : option string
}.

Definition matchMsg (m : RawMatch) : MatchMsg :=
  mkMatchMsg (s_ts m) ("#" ++ Js.strOr (s_channel_name m) "unknown")
    (Js.strOr (s_user m) (Js.strOr (s_username m) ""))
    (s_text m).

Definition matchRow (m : MatchMsg) : string :=
  x_ts m ++ "," ++ quoted (x_channel m) ++ "," ++ quoted (x_user m) ++ ","
  ++ csvTextField (x_text m).

Definition searchCsv (rows : list MatchMsg) : string :=
  Js.join nl ("ts,channel,user,text" :: List.map matchRow rows).

Definition handleConversationsSearch (c : Cache) (args : option ToolArgs)
    : M string :=
  a <- needArgs args "query" ;;
  q1 <- lift (searchChannelClause c a (a_query a)) ;;
  let q2 := searchUserClause c a q1 in
  result <- slackApi (SearchMessages q2 (Z.min (Js.numOr (a_limit a) 20) 100)) ;;
  ret (searchCsv (List.map matchMsg (listOr (matches result)))).

Definition postedText (result : ApiData) : string :=
  "Message posted: ts=" ++ Js.show (post_ts result) ++ ", channel="
  ++ Js.show (post_channel result).

(** [!ADD_MESSAGE_ENABLED && !ALLOWED_CHANNELS] *)
Definition postingDisabled (cfg : Config) : bool :=
  negb (ADD_MESSAGE_ENABLED cfg)
  && match ALLOWED_CHANNELS cfg with Some _ => false | None => true end.

(** [ALLOWED_CHANNELS && !ALLOWED_CHANNELS.includes(channelId)] *)
Definition offAllowList (cfg : Config) (channelId : string) : bool :=
  match ALLOWED_CHANNELS cfg with
  | Some allowed => negb (Js.arrayIncludes allowed channelId)
  | None => false
  end.

Definition handleAddMessage (cfg : Config) (c : Cache) (args : option ToolArgs)
    : M string :=
  if postingDisabled cfg then throw Msg.posting_disabled
  else
    a <- needArgs args "channel_id" ;;
    channelId <- lift (resolveChannelArg c (a_channel_id a)) ;;
    if offAllowList cfg channelId then throw (Msg.not_allowed channelId)
    else
      result <- slackApi (ChatPostMessage channelId (a_text a) (a_thread_ts a)) ;;
      ret (postedText result).

(** ** Dispatch: the CallToolRequestSchema handler *)

Record ToolResult := mkToolResult { text : string; isError : bool }.

Definition toolHandler (cfg : Config) (c : Cache) (tool : string)
    (args : option ToolArgs) : M string :=
  if String.eqb tool "channels_list" then handleChannelsList c args
  else if String.eqb tool "conversations_history" then handleConversationsHistory c args
  else if String.eqb tool "conversations_replies" then handleConversationsReplies c args
  else if String.eqb tool "conversations_search" then handleConversationsSearch c args
  else if String.eqb tool "conversations_add_message" then handleAddMessage cfg c args
  else throw (Msg.unknown_tool tool).

(** The [try ... catch] around the switch: a thrown error becomes an error
    result. *)
Definition callTool (cfg : Config) (c : Cache) (tool : string)
    (args : option ToolArgs) : M ToolResult :=
  fun w =>
    match toolHandler cfg c tool args w with
    | (Ret csv, w') => (Ret (mkToolResult csv false), w')
    | (Throw msg, w') => (Ret (mkToolResult ("Error: " ++ msg) true), w')
    | (Starved, w') => (Starved, w')
    end.

(** ** Resources: the ReadResourceRequestSchema handler *)

Definition resourceChannels (c : Cache) : list Channel :=
  List.filter (fun ch => negb (is_im ch) && negb (is_mpim ch))
              (map_values (channelsById c)).

Definition userRow (u : User) : string :=
  user_id u ++ "," ++ user_name u ++ "," ++ quoted (real_name u).

Definition usersCsv (users : list User) : string :=
  Js.join nl ("id,name,real_name" :: List.map userRow users).

Definition readResource (c : Cache) (uri : string) : Outcome string :=
  if Js.endsWith uri "/channels" then Ret (channelsCsv (resourceChannels c))
  else if Js.endsWith uri "/users" then Ret (usersCsv (map_values (usersById c)))
  else Throw (Msg.unknown_resource uri).

(** ** A parser for quoted CSV fields, following the usual quote-doubling
    rules: the field opens with a quote; inside, two quotes stand for one
    quote character and a single quote closes the field, which must end
    there. *)

Fixpoint csvUnquoteBody (s : string) : option string :=
  match s with
  | EmptyString => None
  | String a r =>
      if Ascii.eqb a Js.dquote then
        match r with
        | EmptyString => Some EmptyString
        | String b r' =>
            if Ascii.eqb b Js.dquote
            then option_map (String Js.dquote) (csvUnquoteBody r')
            else None
        end
      else option_map (String a) (csvUnquoteBody r)
  end.

Definition csvUnquote (s : string) : option string :=
  match s with
  | String a r => if Ascii.eqb a Js.dquote then csvUnquoteBody r else None
  | EmptyString => None
  end.

(** ** Notions used to state the properties *)

(** The table [resolveChannelId] consults for an input: by name for a
    [#]-prefixed input, by id otherwise. *)
Definition cachedTarget (c : Cache) (input : string) : option Channel :=
  if Js.startsWith input "#" then map_get input (channelsByName c)
  else map_get input (channelsById c).

(** The conditions under which [resolveChannelId] throws one of its
    direct-message errors. *)
Definition targetBlocked (c : Cache) (input : string) : bool :=
  Js.startsWith input "@" || Js.startsWith input "D"
  || lookup_flagged (cachedTarget c input).

(** Which of the three checks of [resolveChannelId] an input reaches first. *)
Inductive Guard := AtPrefix | IdPrefix | CachedFlag.

Definition matchedGuard (input : string) : Guard :=
  if Js.startsWith input "@" then AtPrefix
  else if Js.startsWith input "D" then IdPrefix
  else CachedFlag.

Definition guardMessage (k : Guard) : string :=
  match k with
  | AtPrefix => Msg.dm_at
  | IdPrefix => Msg.dm_id
  | CachedFlag => Msg.dm_cached
  end.

Definition andThen {A B} (o : Outcome A) (f : A -> Outcome B) : Outcome B :=
  match o with
  | Ret a => f a
  | Throw msg => Throw msg
  | Starved => Starved
  end.

(** The three-way classification of the specification (its data model,
    Security Classification): computed from the identifier and, when there
    is one, the cached channel it names. The source has no such function;
    this one follows the specification's words and serves to state its
    per-category sentence. *)
Inductive Category := RegularChannel | DirectMessage | GroupDirectMessage.

Definition specCategory (c : Cache) (input : string) : Category :=
  if Js.startsWith input "@" || Js.startsWith input "D" then DirectMessage
  else
    match cachedTarget c input with
    | Some ch =>
        if is_im ch then DirectMessage
        else if is_mpim ch then GroupDirectMessage
        else RegularChannel
    | None => RegularChannel
    end.

(** ** Concrete replies, caches and arguments for the examples *)

Definition apiOk : ApiData :=
  mkApiData true None None None None None None false None None None.

Definition authReply (t : string) : HttpResult :=
  HttpReply (mkApiData true None (Some t) None None None None false None None None).

Definition channelsPage (chs : list RawChannel) (cur : option string) : HttpResult :=
  HttpReply (mkApiData true None None (Some chs) None cur None false None None None).

Definition usersPage (us : list RawUser) (cur : option string) : HttpResult :=
  HttpReply (mkApiData true None None None (Some us) cur None false None None None).

Definition messagesPage (ms : list RawMessage) : HttpResult :=
  HttpReply (mkApiData true None None None None None (Some ms) false None None None).

Definition postedReply (ts ch : string) : HttpResult :=
  HttpReply (mkApiData true None None None None None None false None (Some ts) (Some ch)).

Definition rawChannel (i n : string) (im mpim : bool) : RawChannel :=
  mkRawChannel i n (Some false) (Some im) (Some mpim) None None None.

Definition rawUser (i n : string) (rn : option string) : RawUser :=
  mkRawUser i n None None rn.

Definition targetArgs (channel_id : string) : ToolArgs :=
  mkToolArgs None None (Some channel_id) None None None None None (Some "hello").

Definition searchArgs (query channel : string) : ToolArgs :=
  mkToolArgs None None None None None (Some query) (Some channel) None None.

(** A workspace with a public channel, a group direct message and one user. *)
Definition demoScript : list HttpResult :=
  [ authReply "acme";
    channelsPage [rawChannel "C100" "general" false false] (Some "A");
    channelsPage [rawChannel "G200" "mpdm-a--b--c" false true] (Some "");
    usersPage [rawUser "U1" "alice" (Some "Alice A")] None ].

Definition demoCache : Cache :=
  match fst (buildCache demoScript) with
  | Ret c => c
  | _ => empty_cache
  end.

(** A listing reply in which a channel that is not flagged as a direct
    message carries an id with the [D] prefix. *)
Definition prefixScript : list HttpResult :=
  [ authReply "acme";
    channelsPage [rawChannel "D1" "x" false false] None;
    usersPage [] None ].

Definition prefixCache : Cache :=
  mkCache [("D1", mkChannel "D1" "#x" false false false None None None)]
          [("#x", mkChannel "D1" "#x" false false false None None None)]
          [] [] "acme".

(** A listing reply with two channels of the same name. *)
Definition sameNameScript : list HttpResult :=
  [ authReply "acme";
    channelsPage [rawChannel "C1" "a" false false;
                  rawChannel "C2" "a" false false] None;
    usersPage [] None ].

Definition sameNameCache : Cache :=
  mkCache [("C1", mkChannel "C1" "#a" false false false None None None);
           ("C2", mkChannel "C2" "#a" false false false None None None)]
          [("#a", mkChannel "C2" "#a" false false false None None None)]
          [] [] "acme".

(** A listing reply with two records of the same id and different names. *)
Definition sameIdScript : list HttpResult :=
  [ authReply "acme";
    channelsPage [rawChannel "C1" "a" false false;
                  rawChannel "C1" "b" false false] None;
    usersPage [] None ].

Definition sameIdCache : Cache :=
  mkCache [("C1", mkChannel "C1" "#b" false false false None None None)]
          [("#a", mkChannel "C1" "#a" false false false None None None);
           ("#b", mkChannel "C1" "#b" false false false None None None)]
          [] [] "acme".

(** Listing replies in which the conversation [C1] comes twice: first as a
    channel named [a], then, on the next page, under the name [b] and
    flagged as a group direct message. *)
Definition staleNameScript : list HttpResult :=
  [ authReply "acme";
    channelsPage [rawChannel "C1" "a" false false] (Some "p2");
    channelsPage [rawChannel "C1" "b" false true] None;
    usersPage [] None ].

Definition staleNameCache : Cache :=
  mkCache [("C1", mkChannel "C1" "#b" false false true None None None)]
          [("#a", mkChannel "C1" "#a" false false false None None None);
           ("#b", mkChannel "C1" "#b" false false true None None None)]
          [] [] "acme".

Definition matchesReply (ms : list RawMatch) : HttpResult :=
  HttpReply (mkApiData true None None None None None None false (Some ms) None None).

Definition unflagged (ch : Channel) : Prop := is_im ch = false /\ is_mpim ch = false.

(** ** What a build reads from the script *)

(** The pages a [do ... while (cursor)] loop consumes, and the script left. *)
Fixpoint pagesRead (sc : list HttpResult) : list ApiData * list HttpResult :=
  match sc with
  | [] => ([], [])
  | r :: rest =>
      match slackApiReply r with
      | Ret result =>
          match continueWith (next_cursor result) with
          | Some _ => let (ps, rem) := pagesRead rest in (result :: ps, rem)
          | None => ([result], rest)
          end
      | _ => ([], rest)
      end
  end.

(** The channel records of a build script, in the order they are stored:
    the first response answers [auth.test], the channel pages follow. *)
Definition channelRecords (sc : list HttpResult) : list RawChannel :=
  flat_map (fun p => listOr (channels p)) (fst (pagesRead (List.tl sc))).

(** The user records of a build script that are stored (neither deleted nor
    bots), in order. *)
Definition userRecords (sc : list HttpResult) : list RawUser :=
  List.filter (fun u => negb (skippedUser u))
    (flat_map (fun p => listOr (members p))
       (fst (pagesRead (snd (pagesRead (List.tl sc)))))).

(** The last element of a list that satisfies [p]. *)
Fixpoint find_last {A} (p : A -> bool) (l : list A) : option A :=
  match l with
  | [] => None
  | x :: r =>
      match find_last p r with
      | Some y => Some y
      | None => if p x then Some x else None
      end
  end.

(** ** Consistency of the by-id and by-name tables *)

(** Every entry of one table is the entry of the other table under its own
    name, respectively id. *)
Definition channelTablesConsistent (c : Cache) : Prop :=
  (forall k ch, map_get k (channelsById c) = Some ch ->
                map_get (name ch) (channelsByName c) = Some ch) /\
  (forall k ch, map_get k (channelsByName c) = Some ch ->
                map_get (id ch) (channelsById c) = Some ch).

Definition userTablesConsistent (c : Cache) : Prop :=
  (forall k u, map_get k (usersById c) = Some u ->
               map_get ("@" ++ user_name u) (usersByName c) = Some u) /\
  (forall k u, map_get k (usersByName c) = Some u ->
               map_get (user_id u) (usersById c) = Some u).

(** The weaker relation that survives duplicates: the name of every by-id
    entry is a key of the by-name table, and the id of every by-name entry
    is a key of the by-id table. *)
Definition channelKeysConsistent (c : Cache) : Prop :=
  (forall k ch, map_get k (channelsById c) = Some ch ->
                exists ch', map_get (name ch) (channelsByName c) = Some ch'
                            /\ name ch' = name ch) /\
  (forall k ch, map_get k (channelsByName c) = Some ch ->
                exists ch', map_get (id ch) (channelsById c) = Some ch'
                            /\ id ch' = id ch).

Definition userKeysConsistent (c : Cache) : Prop :=
  (forall k u, map_get k (usersById c) = Some u ->
               exists u', map_get ("@" ++ user_name u) (usersByName c) = Some u'
                          /\ user_name u' = user_name u) /\
  (forall k u, map_get k (usersByName c) = Some u ->
               exists u', map_get (user_id u) (usersById c) = Some u'
                          /\ user_id u' = user_id u).

(** Records share an id exactly when they share a name. *)
Definition idsMatchNames {R} (rid rname : R -> string) (rs : list R) : Prop :=
  forall r1 r2, In r1 rs -> In r2 rs -> (rid r1 = rid r2 <-> rname r1 = rname r2).

(** Records that share their [f] share their [g]. *)
Definition sameThen {R} (f g : R -> string) (rs : list R) : Prop :=
  forall r1 r2, In r1 rs -> In r2 rs -> f r1 = f r2 -> g r1 = g r2.

(** A table filled by one [set] per record, in order. *)
Definition setAll {R V} (key : R -> string) (val : R -> V) (rs : list R)
    (m : JsMap V) : JsMap V :=
  fold_left (fun m r => map_set (key r) (val r) m) rs m.


(** ** Further notions: listing *)

(** The test of the listing loop on a channel that is not skipped: the
    channel is pushed when its kind is among the requested types. *)
Definition wantedType (types : string) (ch : Channel) : bool :=
  (Js.includes types "public_channel" && negb (is_private ch))
  || (Js.includes types "private_channel" && is_private ch).

(** The array of requested types after the filter, before the join. *)
Definition requestedTypeList (args : option ToolArgs) : list string :=
  List.filter
    (fun t => String.eqb t "public_channel" || String.eqb t "private_channel")
    (Js.split Js.comma
       (Js.strOr (optArg args a_types) "public_channel,private_channel")).

(** ** Further notions: cache build *)

(** The calls of a paging loop that read [pages], the first with [cur]:
    each later call carries the cursor of the page before it. *)
Fixpoint pageCalls (mk : option string -> Call) (cur : option string)
    (pages : list ApiData) : list Call :=
  match pages with
  | [] => []
  | p :: ps => mk cur :: pageCalls mk (continueWith (next_cursor p)) ps
  end.

(** A response [slackApi] returns from, rather than throws on. *)
Definition replyOk (r : HttpResult) : bool :=
  match r with
  | HttpReply d => ok d
  | HttpFail _ => false
  end.

(** The channel pages and the user pages a build script delivers. *)
Definition channelPages (sc : list HttpResult) : list ApiData :=
  fst (pagesRead (List.tl sc)).

Definition userPages (sc : list HttpResult) : list ApiData :=
  fst (pagesRead (snd (pagesRead (List.tl sc)))).

(** What an outcome says about the responses a run consumed: all were
    successful replies, except that a thrown error is the error of the last
    one. *)
Definition consumedFor {A} (o : Outcome A) (consumed : list HttpResult) : Prop :=
  match o with
  | Ret _ => Forall (fun r => replyOk r = true) consumed
  | Starved => Forall (fun r => replyOk r = true) consumed
  | Throw msg =>
      exists pre r,
        consumed = (pre ++ [r])%list /\
        Forall (fun r => replyOk r = true) pre /\
        slackApiReply r = Throw msg
  end.

(** ** Further notions: the calls of a tool *)

(** The calls a tool request may send: one per tool, aimed at the resolved
    target and with the clamped limit; the post only when posting is enabled
    and the resolved target passes the allow-list. *)
Definition sentBy (cfg : Config) (c : Cache) (tool : string)
    (args : option ToolArgs) (k : Call) : Prop :=
  exists a, args = Some a /\
  match k with
  | ConversationsHistory ch lim cur =>
      tool = "conversations_history" /\ lim = pageLimit a /\ cur = a_cursor a /\
      exists x, a_channel_id a = Some x /\ resolveChannelId c x = Ret ch
  | ConversationsReplies ch ts lim cur =>
      tool = "conversations_replies" /\ ts = a_thread_ts a /\
      lim = pageLimit a /\ cur = a_cursor a /\
      exists x, a_channel_id a = Some x /\ resolveChannelId c x = Ret ch
  | SearchMessages q n =>
      tool = "conversations_search" /\
      n = Z.min (Js.numOr (a_limit a) 20) 100 /\
      exists q1, searchChannelClause c a (a_query a) = Ret q1 /\
                 q = searchUserClause c a q1
  | ChatPostMessage ch txt ts =>
      tool = "conversations_add_message" /\ txt = a_text a /\
      ts = a_thread_ts a /\ postingDisabled cfg = false /\
      offAllowList cfg ch = false /\
      exists x, a_channel_id a = Some x /\ resolveChannelId c x = Ret ch
  | _ => False
  end.

(** What the next scripted response makes of a call that was sent: the run
    waits when there is none, throws the error of a failed one, and returns
    otherwise. *)
Definition answered {A} (w : World) (o : Outcome A) : Prop :=
  match script w with
  | [] => o = Starved
  | r :: _ =>
      match slackApiReply r with
      | Ret _ => exists a, o = Ret a
      | Throw msg => o = Throw msg
      | Starved => False
      end
  end.

(** A run sent nothing and did not wait, or sent [k], took one response and
    ended as that response decides. *)
Definition stepOf {A} (w : World) (o : Outcome A) (w' : World)
    (sent : Call -> Prop) : Prop :=
  (w' = w /\ o <> Starved) \/
  exists k, sent k /\ log w' = (log w ++ [k])%list /\
            script w' = List.tl (script w) /\ answered w o.

(** The tool whose handler sends a call of this method, if any. *)
Definition toolOfCall (k : Call) : option string :=
  match k with
  | ConversationsHistory _ _ _ => Some "conversations_history"
  | ConversationsReplies _ _ _ _ => Some "conversations_replies"
  | SearchMessages _ _ => Some "conversations_search"
  | ChatPostMessage _ _ _ => Some "conversations_add_message"
  | _ => None
  end.

(** At the dispatch boundary a thrown error has become an error result. *)
Definition caught (o : Outcome string) : Outcome ToolResult :=
  match o with
  | Ret csv => Ret (mkToolResult csv false)
  | Throw msg => Ret (mkToolResult ("Error: " ++ msg) true)
  | Starved => Starved
  end.

(** ** Further notions: search arguments *)

(** The argument bag with another [from_user]. *)
Definition withFromUser (a : ToolArgs) (u : option string) : ToolArgs :=
  mkToolArgs (a_types a) (a_limit a) (a_channel_id a) (a_cursor a)
             (a_thread_ts a) (a_query a) (a_channel a) u (a_text a).

(** ** Resources: the ListResourcesRequestSchema handler *)

Record Resource := mkResource {
  res_uri : string;
  res_name : string;
  res_mimeType : string;
  res_description : string
}.

Definition listResources (c : Cache) : list Resource :=
  [ mkResource ("slack://" ++ workspace c ++ "/channels")
               "Slack Channels Directory" "text/csv"
               "List of all accessible channels (DMs excluded)";
    mkResource ("slack://" ++ workspace c ++ "/users")
               "Slack Users Directory" "text/csv"
               "List of all workspace users" ].

(** [t] is [s] or the end of [s] after some characters: a recursive reading
    of [s.endsWith(t)]. *)
Fixpoint isSuffix (s t : string) : bool :=
  String.eqb s t
  || match s with
     | EmptyString => false
     | String _ r => isSuffix r t
     end.

(** ** Credentials: the choice of the authentication method *)

(** Truthiness of an environment variable: set and not empty. *)
Definition isSet (o : option string) : bool :=
  match o with Some s => Js.truthy s | None => false end.

(** [process.env.SLACK_TOKEN || process.env.SLACK_MCP_XOXP_TOKEN] *)
Definition XOXP_TOKEN (slack_token mcp_xoxp : option string) : option string :=
  if isSet slack_token then slack_token else mcp_xoxp.

Record Auth := mkAuth { AUTH_TOKEN : string; AUTH_COOKIE : option string }.

(** The [if (XOXC_TOKEN && XOXD_TOKEN) ... else if (XOXP_TOKEN) ... else]
    chain; [None] is [process.exit(1)]. *)
Definition selectAuth (xoxc xoxd slack_token mcp_xoxp : option string)
    : option Auth :=
  if isSet xoxc && isSet xoxd
  then Some (mkAuth (Js.strOr xoxc "") (Some ("d=" ++ Js.strOr xoxd "")))
  else if isSet (XOXP_TOKEN slack_token mcp_xoxp)
  then Some (mkAuth (Js.strOr (XOXP_TOKEN slack_token mcp_xoxp) "") None)
  else None.

(** The headers of the HTTP client. *)
Definition requestHeaders (a : Auth) : list (string * string) :=
  ("Authorization", "Bearer " ++ AUTH_TOKEN a)
  :: ("Content-Type", "application/json; charset=utf-8")
  :: match AUTH_COOKIE a with
     | Some ck => if Js.truthy ck then [("Cookie", ck)] else []
     | None => []
     end.

(** ** Further notions: parameters of a call *)

(** The number of items a call asks the remote for, when it names one. *)
Definition call_limit (k : Call) : option Z :=
  match k with
  | ConversationsList _ lim _ => Some lim
  | UsersList lim _ => Some lim
  | ConversationsHistory _ lim _ => Some lim
  | ConversationsReplies _ _ lim _ => Some lim
  | SearchMessages _ n => Some n
  | _ => None
  end.

(** ** Further notions: tables *)

(** The lines after the header: each row behind a line feed. *)
Definition linesAfter (rows : list string) : string :=
  fold_right (fun r acc => nl ++ r ++ acc) "" rows.

(** ** Reading a row back *)







(** * Properties *)

(** ** Strings *)

Lemma startsWith_char (s : string) (a : ascii) :
  Js.startsWith s (String a EmptyString) = true <-> exists r, s = String a r.
Proof.
  unfold Js.startsWith. destruct s as [|b r]; simpl.
  - split; [discriminate | intros [r H]; discriminate].
  - destruct (ascii_dec a b) as [->|Hne].
    + split; [eauto | intros _; now destruct r].
    + split; [discriminate | intros [r' H]; inversion H; congruence].
Qed.

Lemma startsWith_char_excl (s : string) (a b : ascii) :
  a <> b ->
  Js.startsWith s (String a EmptyString) = true ->
  Js.startsWith s (String b EmptyString) = false.
Proof.
  intros Hab Ha. apply startsWith_char in Ha as [r ->].
  destruct (Js.startsWith (String a r) (String b EmptyString)) eqn:E; auto.
  apply startsWith_char in E as [r' E]. inversion E. congruence.
Qed.

Lemma truthy_false (s : string) : Js.truthy s = false <-> s = "".
Proof.
  unfold Js.truthy. rewrite negb_false_iff. apply String.eqb_eq.
Qed.

Lemma truthy_true (s : string) : Js.truthy s = true <-> s <> "".
Proof.
  unfold Js.truthy. rewrite negb_true_iff. apply String.eqb_neq.
Qed.

(** ** Outcomes of [resolveChannelId] *)

Lemma resolve_blocked (c : Cache) (input : string) :
  targetBlocked c input = true ->
  resolveChannelId c input = Throw (guardMessage (matchedGuard input)).
Proof.
  unfold targetBlocked, cachedTarget, resolveChannelId, matchedGuard.
  destruct (Js.startsWith input "@") eqn:Hat; [reflexivity|].
  destruct (Js.startsWith input "D") eqn:Hd; [reflexivity|].
  simpl. destruct (Js.startsWith input "#").
  - destruct (map_get input (channelsByName c)) as [ch|]; simpl; [|discriminate].
    now intros ->.
  - destruct (map_get input (channelsById c)) as [ch|]; simpl; [|discriminate].
    now intros ->.
Qed.

Lemma resolve_not_blocked (c : Cache) (input : string) :
  targetBlocked c input = false ->
  resolveChannelId c input =
    if Js.startsWith input "#" then
      match map_get input (channelsByName c) with
      | Some ch => Ret (id ch)
      | None => Throw (Msg.not_found input)
      end
    else Ret input.
Proof.
  unfold targetBlocked, cachedTarget, resolveChannelId.
  destruct (Js.startsWith input "@"); [discriminate|].
  destruct (Js.startsWith input "D"); [discriminate|].
  simpl. destruct (Js.startsWith input "#").
  - destruct (map_get input (channelsByName c)) as [ch|]; simpl; [|reflexivity].
    now intros ->.
  - destruct (map_get input (channelsById c)) as [ch|]; simpl; [|reflexivity].
    now intros ->.
Qed.

(** The rejections of [resolveChannelId] other than not-found are exactly
    those of blocked targets. *)
Lemma targetBlocked_iff_rejected (c : Cache) (input : string) :
  targetBlocked c input = true <->
  exists msg, resolveChannelId c input = Throw msg /\ msg <> Msg.not_found input.
Proof.
  split.
  - intros H. exists (guardMessage (matchedGuard input)).
    split; [now apply resolve_blocked|].
    destruct (matchedGuard input); discriminate.
  - intros [msg [Hr Hn]].
    destruct (targetBlocked c input) eqn:E; [reflexivity|].
    rewrite (resolve_not_blocked c input E) in Hr.
    destruct (Js.startsWith input "#"); [|discriminate].
    destruct (map_get input (channelsByName c)); [discriminate|].
    inversion Hr. congruence.
Qed.

(** On a raw identifier the blocked targets are those [isBlockedChannel]
    blocks. *)
Lemma targetBlocked_raw (c : Cache) (input : string) :
  Js.startsWith input "#" = false ->
  targetBlocked c input = isBlockedChannel c input (Some input).
Proof.
  intros H. unfold targetBlocked, cachedTarget, isBlockedChannel. rewrite H.
  destruct (Js.startsWith input "@"); [reflexivity|].
  destruct (Js.startsWith input "D"); [reflexivity|].
  simpl. now destruct (lookup_flagged _).
Qed.

(** The categories of the specification other than regular channel are the
    blocked targets. *)
Lemma specCategory_blocked (c : Cache) (input : string) :
  specCategory c input <> RegularChannel <-> targetBlocked c input = true.
Proof.
  unfold specCategory, targetBlocked, lookup_flagged, dm_flag.
  destruct (Js.startsWith input "@" || Js.startsWith input "D"); simpl.
  - split; [reflexivity | discriminate].
  - destruct (cachedTarget c input) as [ch|]; [|split; [congruence|discriminate]].
    destruct (is_im ch), (is_mpim ch); simpl;
      split; try reflexivity; try discriminate; congruence.
Qed.

Lemma not_found_not_security (input : string) :
  Msg.not_found input <> Msg.dm_at /\
  Msg.not_found input <> Msg.dm_id /\
  Msg.not_found input <> Msg.dm_cached.
Proof. repeat split; discriminate. Qed.

(** C2. [resolveChannelId] is the four-step algorithm: an [@] input and a [D]
    input are rejected whatever the cache holds; a [#] input is looked up by
    name, with a not-found error (different from the three rejection
    messages) for an unknown name, a rejection for a flagged channel and the
    channel id otherwise; any other input is looked up by id, rejected when
    the cached channel is flagged and returned unchanged otherwise, in
    particular when it is absent from the cache. *)
Theorem resolveChannelId_four_steps (input : string) :
  (Js.startsWith input "@" = true ->
   forall c, resolveChannelId c input = Throw Msg.dm_at) /\
  (Js.startsWith input "D" = true ->
   forall c, resolveChannelId c input = Throw Msg.dm_id) /\
  (Js.startsWith input "#" = true ->
   forall c,
     match map_get input (channelsByName c) with
     | None =>
         resolveChannelId c input = Throw (Msg.not_found input) /\
         Msg.not_found input <> Msg.dm_at /\
         Msg.not_found input <> Msg.dm_id /\
         Msg.not_found input <> Msg.dm_cached
     | Some ch =>
         if is_im ch || is_mpim ch
         then resolveChannelId c input = Throw Msg.dm_cached
         else resolveChannelId c input = Ret (id ch)
     end) /\
  (Js.startsWith input "@" = false ->
   Js.startsWith input "D" = false ->
   Js.startsWith input "#" = false ->
   forall c,
     match map_get input (channelsById c) with
     | None => resolveChannelId c input = Ret input
     | Some ch =>
         if is_im ch || is_mpim ch
         then resolveChannelId c input = Throw Msg.dm_cached
         else resolveChannelId c input = Ret input
     end).
Proof.
  repeat split.
  - intros H c. unfold resolveChannelId. now rewrite H.
  - intros H c. unfold resolveChannelId. rewrite H.
    rewrite (startsWith_char_excl input "D" "@"); [reflexivity|discriminate|exact H].
  - intros H c. unfold resolveChannelId. rewrite H.
    rewrite (startsWith_char_excl input "#" "@"); [|discriminate|exact H].
    rewrite (startsWith_char_excl input "#" "D"); [|discriminate|exact H].
    destruct (map_get input (channelsByName c)) as [ch|].
    + unfold dm_flag. now destruct (is_im ch || is_mpim ch).
    + split; [reflexivity | apply not_found_not_security].
  - intros Hat Hd Hh c. unfold resolveChannelId. rewrite Hat, Hd, Hh.
    destruct (map_get input (channelsById c)) as [ch|]; [|reflexivity].
    unfold dm_flag. now destruct (is_im ch || is_mpim ch).
Qed.

(** C8. A raw id cached as a channel that is neither a direct message nor a
    group direct message resolves to itself, so resolving the result again
    changes nothing. *)
Theorem resolveChannelId_idempotent (c : Cache) (x : string) (ch : Channel) :
  Js.startsWith x "@" = false ->
  Js.startsWith x "D" = false ->
  Js.startsWith x "#" = false ->
  map_get x (channelsById c) = Some ch ->
  is_im ch = false ->
  is_mpim ch = false ->
  resolveChannelId c x = Ret x /\
  andThen (resolveChannelId c x) (resolveChannelId c) = resolveChannelId c x.
Proof.
  intros Hat Hd Hh Hget Him Hmp.
  assert (R : resolveChannelId c x = Ret x).
  { unfold resolveChannelId. rewrite Hat, Hd, Hh, Hget.
    unfold dm_flag. now rewrite Him, Hmp. }
  split; [exact R|]. rewrite R. simpl. exact R.
Qed.

Lemma resolveChannelId_four_steps_witness :
  resolveChannelId demoCache "@alice" = Throw Msg.dm_at /\
  resolveChannelId demoCache "D024BE91L" = Throw Msg.dm_id /\
  resolveChannelId demoCache "#general" = Ret "C100" /\
  resolveChannelId demoCache "C999" = Ret "C999".
Proof.
  destruct (resolveChannelId_four_steps "@alice") as [H1 _].
  destruct (resolveChannelId_four_steps "D024BE91L") as [_ [H2 _]].
  destruct (resolveChannelId_four_steps "#general") as [_ [_ [H3 _]]].
  destruct (resolveChannelId_four_steps "C999") as [_ [_ [_ H4]]].
  split; [apply H1; reflexivity|].
  split; [apply H2; reflexivity|].
  split; [exact (H3 eq_refl demoCache)|].
  exact (H4 eq_refl eq_refl eq_refl demoCache).
Defined.

Lemma resolveChannelId_idempotent_witness :
  resolveChannelId demoCache "C100" = Ret "C100" /\
  andThen (resolveChannelId demoCache "C100") (resolveChannelId demoCache)
  = resolveChannelId demoCache "C100".
Proof.
  apply (resolveChannelId_idempotent demoCache "C100"
           (mkChannel "C100" "#general" false false false None None None));
    reflexivity.
Defined.

(** ** Rejection messages *)

(** C6, as the code has it. An input rejected as a direct message or group
    direct message gets one of three constant messages, chosen by the check
    that caught it ([@] prefix, [D] prefix, cached flag) and so by the first
    character of the input alone: the message is the same for every cache,
    every cached record and either flag. *)
Theorem rejection_message_by_guard (c : Cache) (input : string) :
  targetBlocked c input = true ->
  resolveChannelId c input = Throw (guardMessage (matchedGuard input)) /\
  (forall c' input',
      targetBlocked c' input' = true ->
      matchedGuard input' = matchedGuard input ->
      resolveChannelId c' input' = resolveChannelId c input).
Proof.
  intros H. split; [now apply resolve_blocked|].
  intros c' input' H' E.
  rewrite (resolve_blocked c input H), (resolve_blocked c' input' H').
  now rewrite E.
Qed.

Lemma rejection_message_by_guard_witness :
  resolveChannelId demoCache "G200" = Throw Msg.dm_cached /\
  (forall c' input',
      targetBlocked c' input' = true ->
      matchedGuard input' = matchedGuard "G200" ->
      resolveChannelId c' input' = resolveChannelId demoCache "G200").
Proof.
  apply (rejection_message_by_guard demoCache "G200"). reflexivity.
Defined.

(** C6, as stated, fails: two inputs of the direct-message category are
    rejected with different messages, each naming the check that matched. *)
Lemma rejection_message_differs_within_category :
  specCategory empty_cache "@bob" = DirectMessage /\
  specCategory empty_cache "D123" = DirectMessage /\
  resolveChannelId empty_cache "@bob"
  = Throw "Direct messages (@username) are not accessible for security reasons" /\
  resolveChannelId empty_cache "D123"
  = Throw "Direct messages (D...) are not accessible for security reasons" /\
  resolveChannelId empty_cache "@bob" <> resolveChannelId empty_cache "D123".
Proof. repeat split. discriminate. Qed.

(** ** Channel listing *)

Lemma dm_flag_false (ch : Channel) : dm_flag ch = false <-> unflagged ch.
Proof. unfold dm_flag, unflagged. apply orb_false_iff. Qed.

Lemma selectChannels_unflagged types limit pending :
  forall acc,
    Forall unflagged acc ->
    Forall unflagged (selectChannels types limit pending acc).
Proof.
  induction pending as [|ch rest IH]; intros acc Hacc; simpl; [exact Hacc|].
  destruct (dm_flag ch) eqn:Hf; [now apply IH|].
  apply dm_flag_false in Hf.
  assert (Hsnoc : Forall unflagged (acc ++ [ch])%list)
    by (apply Forall_app; split; [exact Hacc | now constructor]).
  destruct (Js.includes types "public_channel" && negb (is_private ch));
    [|destruct (Js.includes types "private_channel" && is_private ch)];
    match goal with
    | |- context [Z.geb ?a ?b] => destruct (Z.geb a b)
    end; auto.
Qed.

Lemma selectChannels_from_cache types limit pending :
  forall acc ch,
    In ch (selectChannels types limit pending acc) ->
    In ch acc \/ In ch pending.
Proof.
  induction pending as [|p rest IH]; intros acc ch; simpl; [auto|].
  destruct (dm_flag p).
  - intros H. apply IH in H. tauto.
  - destruct (Js.includes types "public_channel" && negb (is_private p));
      [|destruct (Js.includes types "private_channel" && is_private p)];
      match goal with
      | |- context [Z.geb ?a ?b] => destruct (Z.geb a b)
      end;
      intros H; try apply IH in H; try rewrite in_app_iff in H; simpl in H;
      tauto.
Qed.

Lemma resourceChannels_unflagged (c : Cache) :
  Forall unflagged (resourceChannels c).
Proof.
  unfold resourceChannels. apply Forall_forall. intros ch H.
  apply filter_In in H as [_ H]. apply andb_true_iff in H as [H1 H2].
  split; now apply negb_true_iff.
Qed.

(** C3. Whatever the cache holds and whatever type filter and limit are
    requested, the channels the listing renders come from the by-id table
    and none of them has [is_im] or [is_mpim] set; the same holds for the
    channels resource. *)
Theorem listing_omits_flagged_channels (c : Cache) (args : option ToolArgs)
    (uri : string) (w : World) :
  handleChannelsList c args w = (Ret (channelsCsv (listedChannels c args)), w) /\
  Forall (fun ch => is_im ch = false /\ is_mpim ch = false) (listedChannels c args) /\
  (forall ch, In ch (listedChannels c args) -> In ch (map_values (channelsById c))) /\
  (Js.endsWith uri "/channels" = true ->
   readResource c uri = Ret (channelsCsv (resourceChannels c))) /\
  Forall (fun ch => is_im ch = false /\ is_mpim ch = false) (resourceChannels c) /\
  (forall ch, In ch (resourceChannels c) -> In ch (map_values (channelsById c))).
Proof.
  split; [reflexivity|].
  split; [apply selectChannels_unflagged; constructor|].
  split.
  { intros ch H. apply selectChannels_from_cache in H as [[]|H]. exact H. }
  split.
  { intros H. unfold readResource. now rewrite H. }
  split; [apply resourceChannels_unflagged|].
  intros ch H. unfold resourceChannels in H. now apply filter_In in H.
Qed.

(** ** Blocked targets *)

Lemma history_blocked (c : Cache) (a : ToolArgs) (x : string) (w : World) :
  a_channel_id a = Some x ->
  targetBlocked c x = true ->
  handleConversationsHistory c (Some a) w
  = (Throw (guardMessage (matchedGuard x)), w).
Proof.
  intros Ha Hb. unfold handleConversationsHistory, needArgs, bind, ret, lift.
  rewrite Ha. simpl. now rewrite (resolve_blocked c x Hb).
Qed.

Lemma replies_blocked (c : Cache) (a : ToolArgs) (x : string) (w : World) :
  a_channel_id a = Some x ->
  targetBlocked c x = true ->
  handleConversationsReplies c (Some a) w
  = (Throw (guardMessage (matchedGuard x)), w).
Proof.
  intros Ha Hb. unfold handleConversationsReplies, needArgs, bind, ret, lift.
  rewrite Ha. simpl. now rewrite (resolve_blocked c x Hb).
Qed.

Lemma search_blocked (c : Cache) (a : ToolArgs) (x : string) (w : World) :
  a_channel a = Some x ->
  x <> "" ->
  targetBlocked c x = true ->
  handleConversationsSearch c (Some a) w
  = (Throw (guardMessage (matchedGuard x)), w).
Proof.
  intros Ha Hne Hb.
  unfold handleConversationsSearch, needArgs, bind, ret, lift, searchChannelClause.
  rewrite Ha. apply truthy_true in Hne. rewrite Hne.
  now rewrite (resolve_blocked c x Hb).
Qed.

Lemma addMessage_disabled (cfg : Config) (c : Cache) (args : option ToolArgs)
    (w : World) :
  postingDisabled cfg = true ->
  handleAddMessage cfg c args w = (Throw Msg.posting_disabled, w).
Proof. intros H. unfold handleAddMessage. now rewrite H. Qed.

Lemma addMessage_blocked (cfg : Config) (c : Cache) (a : ToolArgs) (x : string)
    (w : World) :
  a_channel_id a = Some x ->
  targetBlocked c x = true ->
  handleAddMessage cfg c (Some a) w
  = (Throw (if postingDisabled cfg then Msg.posting_disabled
            else guardMessage (matchedGuard x)), w).
Proof.
  intros Ha Hb. unfold handleAddMessage.
  destruct (postingDisabled cfg); [reflexivity|].
  unfold needArgs, bind, ret, lift. rewrite Ha. simpl.
  now rewrite (resolve_blocked c x Hb).
Qed.

Lemma callTool_throw (cfg : Config) (c : Cache) (tool : string)
    (args : option ToolArgs) (w w' : World) (msg : string) :
  toolHandler cfg c tool args w = (Throw msg, w') ->
  callTool cfg c tool args w = (Ret (mkToolResult ("Error: " ++ msg) true), w').
Proof. intros H. unfold callTool. now rewrite H. Qed.

(** X25. A request whose target input is blocked (it starts with [@] or
    [D], or the cached channel it names, by name for a [#] input and by id
    otherwise, has [is_im] or [is_mpim] set) is answered with an error
    result by history, replies, post and, for a non-empty channel filter,
    search, and the world is left as it was: no call is sent. The listing
    returns the rendering of channels none of which is flagged. *)
Theorem blocked_target_rejected_everywhere (cfg : Config) (c : Cache)
    (x : string) (a : ToolArgs) (w : World) :
  targetBlocked c x = true ->
  (a_channel_id a = Some x ->
   callTool cfg c "conversations_history" (Some a) w
   = (Ret (mkToolResult ("Error: " ++ guardMessage (matchedGuard x)) true), w) /\
   callTool cfg c "conversations_replies" (Some a) w
   = (Ret (mkToolResult ("Error: " ++ guardMessage (matchedGuard x)) true), w) /\
   callTool cfg c "conversations_add_message" (Some a) w
   = (Ret (mkToolResult
             ("Error: " ++ (if postingDisabled cfg then Msg.posting_disabled
                            else guardMessage (matchedGuard x))) true), w)) /\
  (a_channel a = Some x ->
   x <> "" ->
   callTool cfg c "conversations_search" (Some a) w
   = (Ret (mkToolResult ("Error: " ++ guardMessage (matchedGuard x)) true), w)) /\
  (forall args,
      callTool cfg c "channels_list" args w
      = (Ret (mkToolResult (channelsCsv (listedChannels c args)) false), w) /\
      Forall (fun ch => is_im ch = false /\ is_mpim ch = false)
             (listedChannels c args)).
Proof.
  intros Hb. split; [|split].
  - intros Ha. repeat split; apply callTool_throw; unfold toolHandler; simpl.
    + now apply history_blocked.
    + now apply replies_blocked.
    + now apply addMessage_blocked.
  - intros Ha Hne. apply callTool_throw. unfold toolHandler; simpl.
    now apply search_blocked.
  - intros args. split; [reflexivity|].
    apply selectChannels_unflagged. constructor.
Qed.

(** ** Tables filled by a sequence of [set] calls *)

Section Tables.
Context {R V : Type}.
Variables (key1 key2 : R -> string) (val : R -> V).

Lemma map_get_set (k k' : string) (v : V) (m : JsMap V) :
  map_get k (map_set k' v m) = if String.eqb k' k then Some v else map_get k m.
Proof.
  induction m as [|[k0 v0] m IH]; simpl.
  - reflexivity.
  - destruct (String.eqb k0 k') eqn:E0; simpl.
    + apply String.eqb_eq in E0. subst k0.
      destruct (String.eqb k' k); reflexivity.
    + destruct (String.eqb k0 k) eqn:E1.
      * destruct (String.eqb k' k) eqn:E2; [|reflexivity].
        apply String.eqb_eq in E1, E2. subst.
        rewrite String.eqb_refl in E0. discriminate.
      * exact IH.
Qed.

Lemma get_setAll (key : R -> string) (k : string) (rs : list R) :
  forall m,
    map_get k (setAll key val rs m) =
      match find_last (fun r => String.eqb (key r) k) rs with
      | Some r => Some (val r)
      | None => map_get k m
      end.
Proof.
  unfold setAll. induction rs as [|r rs IH]; intros m; simpl; [reflexivity|].
  rewrite IH. destruct (find_last _ rs); [reflexivity|].
  rewrite map_get_set. now destruct (String.eqb (key r) k).
Qed.

Lemma find_last_some (p : R -> bool) (rs : list R) (r : R) :
  find_last p rs = Some r -> In r rs /\ p r = true.
Proof.
  induction rs as [|x rs IH]; simpl; [discriminate|].
  destruct (find_last p rs) as [y|].
  - intros E. inversion E; subst. destruct (IH eq_refl). auto.
  - destruct (p x) eqn:Px; [|discriminate].
    intros E. inversion E; subst. auto.
Qed.

Lemma find_last_ext (p q : R -> bool) (rs : list R) :
  (forall r, In r rs -> p r = q r) -> find_last p rs = find_last q rs.
Proof.
  induction rs as [|x rs IH]; simpl; intros H; [reflexivity|].
  rewrite IH by auto. rewrite (H x) by auto. reflexivity.
Qed.

Lemma find_last_exists (p : R -> bool) (rs : list R) (r : R) :
  In r rs -> p r = true -> exists r', find_last p rs = Some r'.
Proof.
  induction rs as [|x rs IH]; simpl; [tauto|].
  intros [->|Hin] Hp.
  - destruct (find_last p rs); [eauto|]. rewrite Hp. eauto.
  - destruct (IH Hin Hp) as [r' ->]. eauto.
Qed.

(** An entry of the first table names, through its record, an entry of the
    second table with the same second key. *)
Lemma cross_key (rs : list R) (k : string) (v : V) :
  map_get k (setAll key1 val rs []) = Some v ->
  exists r r',
    In r rs /\ v = val r /\ key1 r = k /\
    map_get (key2 r) (setAll key2 val rs []) = Some (val r') /\
    key2 r' = key2 r.
Proof.
  rewrite get_setAll.
  destruct (find_last _ rs) as [r|] eqn:E; [|discriminate].
  intros Hv. inversion Hv; subst v.
  apply find_last_some in E as [Hin Hk]. apply String.eqb_eq in Hk.
  destruct (find_last_exists (fun r0 => String.eqb (key2 r0) (key2 r)) rs r Hin)
    as [r' E']; [apply String.eqb_refl|].
  exists r, r'. rewrite get_setAll, E'.
  apply find_last_some in E' as [_ Hk']. apply String.eqb_eq in Hk'.
  auto.
Qed.

(** When the records sharing the first key are those sharing the second,
    the two tables hold the same entry for a record. *)
Lemma cross_lookup (rs : list R) (k : string) (v : V) :
  idsMatchNames key1 key2 rs ->
  map_get k (setAll key1 val rs []) = Some v ->
  exists r,
    In r rs /\ v = val r /\ key1 r = k /\
    map_get (key2 r) (setAll key2 val rs []) = Some v.
Proof.
  intros Hm. rewrite get_setAll.
  destruct (find_last _ rs) as [r|] eqn:E; [|discriminate].
  intros Hv. inversion Hv; subst v.
  pose proof (find_last_some _ _ _ E) as [Hin Hk]. apply String.eqb_eq in Hk.
  exists r. repeat split; auto.
  rewrite get_setAll.
  rewrite (find_last_ext (fun r0 => String.eqb (key2 r0) (key2 r))
                         (fun r0 => String.eqb (key1 r0) k) rs).
  - now rewrite E.
  - intros r0 Hin0. subst k.
    destruct (String.eqb (key1 r0) (key1 r)) eqn:E1.
    + apply String.eqb_eq in E1. apply String.eqb_eq. now apply (Hm r0 r).
    + apply String.eqb_neq in E1. apply String.eqb_neq.
      intros E2. apply E1. now apply (Hm r0 r).
Qed.

Lemma find_last_none_all (p : R -> bool) (rs : list R) :
  find_last p rs = None -> forall r, In r rs -> p r = false.
Proof.
  induction rs as [|x rs IH]; simpl; [tauto|].
  destruct (find_last p rs) as [y|]; [discriminate|].
  destruct (p x) eqn:Px; [discriminate|].
  intros _ r [<-|Hin]; auto.
Qed.

(** The last record satisfying [p] and the last one satisfying [q] are the
    same record when each satisfies the other test. *)
Lemma find_last_agree (p q : R -> bool) (rs : list R) (r r' : R) :
  find_last p rs = Some r ->
  find_last q rs = Some r' ->
  q r = true ->
  p r' = true ->
  r = r'.
Proof.
  induction rs as [|x rs IH]; simpl; [discriminate|].
  destruct (find_last p rs) as [y|] eqn:Hp0; destruct (find_last q rs) as [y'|] eqn:Hq0.
  - intros E E'. inversion E; inversion E'; subst. now apply IH.
  - intros E _ Hq _. inversion E; subst.
    apply find_last_some in Hp0 as [Hin _].
    rewrite (find_last_none_all q rs Hq0 r Hin) in Hq. discriminate.
  - intros _ E' _ Hp. inversion E'; subst.
    apply find_last_some in Hq0 as [Hin _].
    rewrite (find_last_none_all p rs Hp0 r' Hin) in Hp. discriminate.
  - destruct (p x), (q x); try discriminate.
    intros E E'. inversion E; inversion E'; subst. reflexivity.
Qed.

(** When the records sharing the second key share the first, an entry of the
    first table is the entry of the second table under its second key. *)
Lemma cross_lookup_half (rs : list R) (k : string) (v : V) :
  sameThen key2 key1 rs ->
  map_get k (setAll key1 val rs []) = Some v ->
  exists r,
    In r rs /\ v = val r /\ key1 r = k /\
    map_get (key2 r) (setAll key2 val rs []) = Some v.
Proof.
  intros Hs. rewrite get_setAll.
  destruct (find_last _ rs) as [r|] eqn:E; [|discriminate].
  intros Hv. inversion Hv; subst v.
  pose proof (find_last_some _ _ _ E) as [Hin Hk]. apply String.eqb_eq in Hk.
  exists r. repeat split; auto.
  rewrite get_setAll.
  destruct (find_last_exists (fun r0 => String.eqb (key2 r0) (key2 r)) rs r Hin)
    as [r' E']; [apply String.eqb_refl|].
  rewrite E'.
  pose proof (find_last_some _ _ _ E') as [Hin' Hk']. apply String.eqb_eq in Hk'.
  rewrite (find_last_agree _ _ rs r r' E E'); [reflexivity| |].
  - apply String.eqb_refl.
  - apply String.eqb_eq. rewrite <- Hk. now apply Hs.
Qed.

End Tables.

(** ** What a cache build stores *)

Lemma storeChannel_all (rs : list RawChannel) :
  forall c,
    fold_left storeChannel rs c =
      mkCache (setAll ch_id toChannel rs (channelsById c))
              (setAll (fun r => "#" ++ ch_name r) toChannel rs (channelsByName c))
              (usersById c) (usersByName c) (workspace c).
Proof.
  unfold setAll. induction rs as [|r rs IH]; intros c; simpl.
  - now destruct c.
  - now rewrite IH.
Qed.

Lemma storeUser_all (us : list RawUser) :
  forall c,
    fold_left storeUser us c =
      let kept := List.filter (fun u => negb (skippedUser u)) us in
      mkCache (channelsById c) (channelsByName c)
              (setAll u_id toUser kept (usersById c))
              (setAll (fun u => "@" ++ u_name u) toUser kept (usersByName c))
              (workspace c).
Proof.
  unfold setAll. induction us as [|u us IH]; intros c; simpl.
  - now destruct c.
  - rewrite IH. unfold storeUser. now destruct (skippedUser u).
Qed.

Lemma loadChannelPages_ret (sc : list HttpResult) :
  forall cur lg c c' w,
    loadChannelPages sc cur lg c = (Ret c', w) ->
    c' = fold_left storeChannel
           (flat_map (fun p => listOr (channels p)) (fst (pagesRead sc))) c
    /\ script w = snd (pagesRead sc).
Proof.
  induction sc as [|r rest IH]; intros cur lg c c' w; simpl; [discriminate|].
  destruct (slackApiReply r) as [result| |]; try discriminate.
  destruct (continueWith (next_cursor result)) as [cur'|].
  - intros H. apply IH in H as [-> Hw].
    destruct (pagesRead rest) as [ps rem]. simpl in *.
    now rewrite fold_left_app.
  - intros H. inversion H; subst. simpl. now rewrite app_nil_r.
Qed.

Lemma loadUserPages_ret (sc : list HttpResult) :
  forall cur lg c c' w,
    loadUserPages sc cur lg c = (Ret c', w) ->
    c' = fold_left storeUser
           (flat_map (fun p => listOr (members p)) (fst (pagesRead sc))) c
    /\ script w = snd (pagesRead sc).
Proof.
  induction sc as [|r rest IH]; intros cur lg c c' w; simpl; [discriminate|].
  destruct (slackApiReply r) as [result| |]; try discriminate.
  destruct (continueWith (next_cursor result)) as [cur'|].
  - intros H. apply IH in H as [-> Hw].
    destruct (pagesRead rest) as [ps rem]. simpl in *.
    now rewrite fold_left_app.
  - intros H. inversion H; subst. simpl. now rewrite app_nil_r.
Qed.

(** The four tables after a completed build, as functions of the records
    the script delivered. *)
Lemma buildCache_tables (sc : list HttpResult) (c : Cache) (w : World) :
  buildCache sc = (Ret c, w) ->
  channelsById c = setAll ch_id toChannel (channelRecords sc) [] /\
  channelsByName c
  = setAll (fun r => "#" ++ ch_name r) toChannel (channelRecords sc) [] /\
  usersById c = setAll u_id toUser (userRecords sc) [] /\
  usersByName c = setAll (fun u => "@" ++ u_name u) toUser (userRecords sc) [].
Proof.
  unfold buildCache, loadCache, bind, slackApi, channelRecords, userRecords.
  destruct sc as [|r sc1]; simpl; [discriminate|].
  destruct (slackApiReply r) as [auth| |]; try discriminate.
  unfold loadChannels; simpl.
  destruct (loadChannelPages sc1 None [AuthTest] _) as [[c1| |] w1] eqn:E1;
    try discriminate.
  apply loadChannelPages_ret in E1 as [-> Hw1].
  unfold loadUsers. rewrite Hw1.
  intros E2. apply loadUserPages_ret in E2 as [-> _].
  rewrite storeUser_all, storeChannel_all. simpl. auto.
Qed.

Lemma hash_name_inj (a b : string) : "#" ++ a = "#" ++ b <-> a = b.
Proof. split; [intros H; now inversion H | now intros ->]. Qed.

Lemma at_name_inj (a b : string) : "@" ++ a = "@" ++ b <-> a = b.
Proof. split; [intros H; now inversion H | now intros ->]. Qed.

(** C4, as the code has it. After a completed build, for every script of
    responses: the name of each by-id entry is a key of the by-name table
    and the id of each by-name entry is a key of the by-id table. When the
    stored records that share a name share their id, every by-id entry is
    the by-name entry under its name; when the stored records that share an
    id share their name, every by-name entry is the by-id entry under its
    id. The same holds of the user tables, with handles for names. *)
Theorem cache_tables_consistent (sc : list HttpResult) (c : Cache) (w : World) :
  buildCache sc = (Ret c, w) ->
  channelKeysConsistent c /\
  userKeysConsistent c /\
  (sameThen ch_name ch_id (channelRecords sc) ->
   forall k ch, map_get k (channelsById c) = Some ch ->
                map_get (name ch) (channelsByName c) = Some ch) /\
  (sameThen ch_id ch_name (channelRecords sc) ->
   forall k ch, map_get k (channelsByName c) = Some ch ->
                map_get (id ch) (channelsById c) = Some ch) /\
  (sameThen u_name u_id (userRecords sc) ->
   forall k u, map_get k (usersById c) = Some u ->
               map_get ("@" ++ user_name u) (usersByName c) = Some u) /\
  (sameThen u_id u_name (userRecords sc) ->
   forall k u, map_get k (usersByName c) = Some u ->
               map_get (user_id u) (usersById c) = Some u).
Proof.
  intros Hb. apply buildCache_tables in Hb as (Ei & En & Ui & Un).
  unfold channelKeysConsistent, userKeysConsistent.
  rewrite Ei, En, Ui, Un.
  split; [split|split; [split|split; [|split; [|split]]]].
  - intros k v H.
    apply (cross_key ch_id (fun r => "#" ++ ch_name r)) in H
      as (r & r' & _ & -> & _ & Hg & Hk).
    exists (toChannel r'). simpl. auto.
  - intros k v H.
    apply (cross_key (fun r => "#" ++ ch_name r) ch_id) in H
      as (r & r' & _ & -> & _ & Hg & Hk).
    exists (toChannel r'). simpl. auto.
  - intros k v H.
    apply (cross_key u_id (fun r => "@" ++ u_name r)) in H
      as (r & r' & _ & -> & _ & Hg & Hk).
    exists (toUser r'). simpl.
    split; [exact Hg | now apply (proj1 (at_name_inj _ _)) in Hk].
  - intros k v H.
    apply (cross_key (fun r => "@" ++ u_name r) u_id) in H
      as (r & r' & _ & -> & _ & Hg & Hk).
    exists (toUser r'). simpl. auto.
  - intros Hs k v H.
    apply (cross_lookup_half ch_id (fun r => "#" ++ ch_name r)) in H
      as (r & _ & -> & _ & Hg); [exact Hg|].
    intros r1 r2 H1 H2 E. apply (proj1 (hash_name_inj _ _)) in E.
    exact (Hs r1 r2 H1 H2 E).
  - intros Hs k v H.
    apply (cross_lookup_half (fun r => "#" ++ ch_name r) ch_id) in H
      as (r & _ & -> & _ & Hg); [exact Hg|].
    intros r1 r2 H1 H2 E. apply (proj2 (hash_name_inj _ _)).
    exact (Hs r1 r2 H1 H2 E).
  - intros Hs k v H.
    apply (cross_lookup_half u_id (fun r => "@" ++ u_name r)) in H
      as (r & _ & -> & _ & Hg); [exact Hg|].
    intros r1 r2 H1 H2 E. apply (proj1 (at_name_inj _ _)) in E.
    exact (Hs r1 r2 H1 H2 E).
  - intros Hs k v H.
    apply (cross_lookup_half (fun r => "@" ++ u_name r) u_id) in H
      as (r & _ & -> & _ & Hg); [exact Hg|].
    intros r1 r2 H1 H2 E. apply (proj2 (at_name_inj _ _)).
    exact (Hs r1 r2 H1 H2 E).
Qed.

Lemma demo_channel_records_match :
  idsMatchNames ch_id ch_name (channelRecords demoScript).
Proof.
  intros r1 r2 H1 H2. cbv in H1, H2.
  destruct H1 as [<-|[<-|[]]], H2 as [<-|[<-|[]]];
    split; intros E; try reflexivity; discriminate E.
Qed.

Lemma demo_user_records_match :
  idsMatchNames u_id u_name (userRecords demoScript).
Proof.
  intros r1 r2 H1 H2. cbv in H1, H2.
  destruct H1 as [<-|[]], H2 as [<-|[]]; split; reflexivity.
Qed.

Lemma idsMatchNames_sameThen {R} (f g : R -> string) (rs : list R) :
  idsMatchNames f g rs -> sameThen f g rs /\ sameThen g f rs.
Proof.
  intros H. split; intros r1 r2 H1 H2 E; now apply (H r1 r2 H1 H2).
Qed.

Lemma same_name_records_share_names :
  sameThen ch_id ch_name (channelRecords sameNameScript).
Proof.
  intros r1 r2 H1 H2. cbv in H1, H2.
  destruct H1 as [<-|[<-|[]]], H2 as [<-|[<-|[]]];
    intros E; try reflexivity; discriminate E.
Qed.

Lemma cache_tables_consistent_witness :
  (channelKeysConsistent demoCache /\ userKeysConsistent demoCache /\
   channelTablesConsistent demoCache /\ userTablesConsistent demoCache) /\
  (forall k ch, map_get k (channelsByName sameNameCache) = Some ch ->
                map_get (id ch) (channelsById sameNameCache) = Some ch).
Proof.
  destruct (cache_tables_consistent demoScript demoCache
              (snd (buildCache demoScript)) eq_refl)
    as (K1 & K2 & T1 & T2 & T3 & T4).
  destruct (idsMatchNames_sameThen _ _ _ demo_channel_records_match) as [C1 C2].
  destruct (idsMatchNames_sameThen _ _ _ demo_user_records_match) as [U1 U2].
  split.
  - split; [exact K1|]. split; [exact K2|].
    split; (split; [apply T1 || apply T3 | apply T2 || apply T4]); assumption.
  - exact (proj1 (proj2 (proj2 (proj2
             (cache_tables_consistent sameNameScript sameNameCache
                (snd (buildCache sameNameScript)) eq_refl))))
             same_name_records_share_names).
Defined.

(** C4, as stated, fails. A listing page with two channels of the same name
    builds a cache whose by-id entry [C1] is not the by-name entry under its
    name, which is the later record [C2]; every by-name entry of that cache
    is still the by-id entry under its id. A listing page with two records
    of the same id and different names builds a cache whose by-name entry
    under [#a] is not the by-id entry under its id, which is the later
    record named [#b]. *)
Lemma same_name_breaks_consistency :
  (buildCache sameNameScript
   = (Ret sameNameCache,
      mkWorld [] [AuthTest;
                  ConversationsList "public_channel,private_channel" 1000 None;
                  UsersList 1000 None]) /\
   map_get "C1" (channelsById sameNameCache)
   = Some (mkChannel "C1" "#a" false false false None None None) /\
   map_get "#a" (channelsByName sameNameCache)
   = Some (mkChannel "C2" "#a" false false false None None None) /\
   ~ channelTablesConsistent sameNameCache) /\
  (buildCache sameIdScript
   = (Ret sameIdCache,
      mkWorld [] [AuthTest;
                  ConversationsList "public_channel,private_channel" 1000 None;
                  UsersList 1000 None]) /\
   map_get "#a" (channelsByName sameIdCache)
   = Some (mkChannel "C1" "#a" false false false None None None) /\
   map_get "C1" (channelsById sameIdCache)
   = Some (mkChannel "C1" "#b" false false false None None None) /\
   ~ channelTablesConsistent sameIdCache).
Proof.
  split; repeat split.
  - intros [H _]. specialize (H "C1" _ eq_refl). discriminate H.
  - intros [_ H]. specialize (H "#a" _ eq_refl). discriminate H.
Qed.

Lemma blocked_target_rejected_everywhere_witness :
  let w := mkWorld [messagesPage []] [] in
  let cfg := mkConfig true None in
  targetBlocked demoCache "G200" = true /\
  callTool cfg demoCache "conversations_history" (Some (targetArgs "G200")) w
  = (Ret (mkToolResult ("Error: " ++ Msg.dm_cached) true), w) /\
  callTool cfg demoCache "conversations_replies" (Some (targetArgs "G200")) w
  = (Ret (mkToolResult ("Error: " ++ Msg.dm_cached) true), w) /\
  callTool cfg demoCache "conversations_add_message" (Some (targetArgs "G200")) w
  = (Ret (mkToolResult ("Error: " ++ Msg.dm_cached) true), w) /\
  callTool cfg demoCache "conversations_search" (Some (searchArgs "q" "G200")) w
  = (Ret (mkToolResult ("Error: " ++ Msg.dm_cached) true), w).
Proof.
  intros w cfg.
  destruct (blocked_target_rejected_everywhere cfg demoCache "G200"
              (targetArgs "G200") w eq_refl) as (H & _ & _).
  destruct (H eq_refl) as (H1 & H2 & H3).
  destruct (blocked_target_rejected_everywhere cfg demoCache "G200"
              (searchArgs "q" "G200") w eq_refl) as (_ & S & _).
  split; [reflexivity|].
  split; [exact H1|]. split; [exact H2|]. split; [exact H3|].
  apply S; [reflexivity | discriminate].
Defined.

(** ** Posting *)

Lemma arrayIncludes_In (arr : list string) (x : string) :
  Js.arrayIncludes arr x = true <-> In x arr.
Proof.
  unfold Js.arrayIncludes. rewrite existsb_exists. split.
  - intros [y [Hin E]]. apply String.eqb_eq in E. now subst.
  - intros H. exists x. split; [exact H | apply String.eqb_refl].
Qed.

Lemma addMessage_resolved (cfg : Config) (c : Cache) (a : ToolArgs)
    (input channelId : string) (w : World) :
  postingDisabled cfg = false ->
  a_channel_id a = Some input ->
  resolveChannelId c input = Ret channelId ->
  handleAddMessage cfg c (Some a) w =
    if offAllowList cfg channelId then (Throw (Msg.not_allowed channelId), w)
    else
      (result <- slackApi (ChatPostMessage channelId (a_text a) (a_thread_ts a)) ;;
       ret (postedText result)) w.
Proof.
  intros Hd Ha Hr. unfold handleAddMessage. rewrite Hd.
  unfold needArgs, lift. unfold bind at 1 2. unfold ret at 1.
  rewrite Ha. simpl. rewrite Hr.
  now destruct (offAllowList cfg channelId).
Qed.

(** C5. With neither the flag nor an allow-list, every post is rejected with
    the posting-disabled error. With an allow-list, whatever the flag, a
    resolved id off the list is rejected without any call, and a resolved id
    on the list is posted to: the call is sent and a successful reply is
    reported. An environment value starting with [C] configures the
    allow-list alone. *)
Theorem posting_enablement_strict :
  (forall c args w,
      handleAddMessage (mkConfig false None) c args w
      = (Throw Msg.posting_disabled, w)) /\
  (forall enabled allowed c a input channelId w,
      a_channel_id a = Some input ->
      resolveChannelId c input = Ret channelId ->
      let cfg := mkConfig enabled (Some allowed) in
      let post := ChatPostMessage channelId (a_text a) (a_thread_ts a) in
      (~ In channelId allowed ->
       handleAddMessage cfg c (Some a) w = (Throw (Msg.not_allowed channelId), w)) /\
      (In channelId allowed ->
       log (snd (handleAddMessage cfg c (Some a) w)) = (log w ++ [post])%list /\
       forall d rest,
         script w = HttpReply d :: rest ->
         ok d = true ->
         handleAddMessage cfg c (Some a) w
         = (Ret (postedText d), mkWorld rest (log w ++ [post])))) /\
  (forall v,
      Js.startsWith v "C" = true ->
      configOfEnv (Some v) = mkConfig false (Some (Js.split Js.comma v))) /\
  configOfEnv None = mkConfig false None.
Proof.
  split; [reflexivity|]. split; [|split; [|reflexivity]].
  - intros enabled allowed c a input channelId w Ha Hr cfg post.
    assert (Hd : postingDisabled cfg = false)
      by (unfold postingDisabled; simpl; apply andb_false_r).
    pose proof (addMessage_resolved cfg c a input channelId w Hd Ha Hr) as E.
    unfold offAllowList in E. simpl in E. split.
    + intros Hn. rewrite E.
      destruct (Js.arrayIncludes allowed channelId) eqn:I; [|reflexivity].
      apply arrayIncludes_In in I. contradiction.
    + intros Hin. apply arrayIncludes_In in Hin. rewrite Hin in E. simpl in E.
      rewrite E. unfold bind, slackApi, ret. fold post. split.
      * destruct (script w) as [|r rest]; [reflexivity|].
        now destruct (slackApiReply r).
      * intros d rest Hs Hok. rewrite Hs. simpl. now rewrite Hok.
  - intros v Hv. unfold configOfEnv. rewrite Hv.
    apply startsWith_char in Hv as [r ->]. reflexivity.
Qed.

Lemma posting_enablement_strict_witness :
  let cfg := configOfEnv (Some "C100") in
  cfg = mkConfig false (Some ["C100"]) /\
  handleAddMessage cfg demoCache (Some (targetArgs "C200")) (mkWorld [] [])
  = (Throw "Posting to channel C200 is not allowed.", mkWorld [] []) /\
  handleAddMessage cfg demoCache (Some (targetArgs "C100"))
                   (mkWorld [postedReply "1.5" "C100"] [])
  = (Ret "Message posted: ts=1.5, channel=C100",
     mkWorld [] [ChatPostMessage "C100" (Some "hello") None]).
Proof.
  intros cfg.
  destruct posting_enablement_strict as (_ & H & _).
  split; [reflexivity|]. split.
  - refine (proj1 (H false ["C100"] demoCache (targetArgs "C200") "C200" "C200"
                     (mkWorld [] []) eq_refl eq_refl) _).
    simpl. intros [E|[]]. discriminate E.
  - refine (proj2 (proj2 (H false ["C100"] demoCache (targetArgs "C100") "C100"
                            "C100" (mkWorld [postedReply "1.5" "C100"] [])
                            eq_refl eq_refl) _) _ [] eq_refl eq_refl).
    simpl. auto.
Defined.

(** C10. When posting is not enabled the post handler throws the
    posting-disabled error at once: for every cache, every argument bag and
    every target the result is that same error, the world is untouched (no
    call is sent), and the message is none of the messages target resolution
    produces. *)
Theorem posting_disabled_before_resolution (cfg : Config) (c : Cache)
    (args : option ToolArgs) (w : World) :
  ADD_MESSAGE_ENABLED cfg = false ->
  ALLOWED_CHANNELS cfg = None ->
  handleAddMessage cfg c args w = (Throw Msg.posting_disabled, w) /\
  callTool cfg c "conversations_add_message" args w
  = (Ret (mkToolResult ("Error: " ++ Msg.posting_disabled) true), w) /\
  (forall k, Msg.posting_disabled <> guardMessage k) /\
  (forall input, Msg.posting_disabled <> Msg.not_found input).
Proof.
  intros He Ha.
  assert (Hd : postingDisabled cfg = true)
    by (unfold postingDisabled; now rewrite He, Ha).
  split; [now apply addMessage_disabled|]. split.
  - apply callTool_throw. unfold toolHandler; simpl. now apply addMessage_disabled.
  - split; [intros []; discriminate | intros input; discriminate].
Qed.

Lemma posting_disabled_before_resolution_witness :
  let cfg := configOfEnv None in
  let w := mkWorld [postedReply "1.5" "C100"] [] in
  handleAddMessage cfg demoCache (Some (targetArgs "C100")) w
  = (Throw Msg.posting_disabled, w) /\
  handleAddMessage cfg demoCache (Some (targetArgs "@alice")) w
  = (Throw Msg.posting_disabled, w) /\
  handleAddMessage cfg demoCache (Some (targetArgs "C999")) w
  = (Throw Msg.posting_disabled, w).
Proof.
  intros cfg w.
  split; [|split].
  - apply (posting_disabled_before_resolution cfg demoCache
             (Some (targetArgs "C100")) w); reflexivity.
  - apply (posting_disabled_before_resolution cfg demoCache
             (Some (targetArgs "@alice")) w); reflexivity.
  - apply (posting_disabled_before_resolution cfg demoCache
             (Some (targetArgs "C999")) w); reflexivity.
Defined.

(** ** CSV fields *)






(** The example of the specification: the field with two quote characters
    is rendered with six and read back unchanged. *)
Example csv_said_hi :
  let s := "He said " ++ dq ++ "hi" ++ dq in
  csvText s = dq ++ "He said " ++ dq ++ dq ++ "hi" ++ dq ++ dq ++ dq /\
  csvUnquote (dq ++ "He said " ++ dq ++ dq ++ "hi" ++ dq ++ dq ++ dq) = Some s.
Proof. split; reflexivity. Qed.

(** ** Author names *)

Lemma strOr_nonempty (o : option string) (d : string) :
  d <> "" -> Js.strOr o d <> "".
Proof.
  intros Hd. unfold Js.strOr. destruct o as [s|]; [|exact Hd].
  destruct (Js.truthy s) eqn:E; [now apply truthy_true | exact Hd].
Qed.

Lemma updateLast_map {A B} (f : A -> A) (g : A -> B) (l : list A) :
  (forall x, g (f x) = g x) ->
  List.map g (updateLast f l) = List.map g l.
Proof.
  intros H. induction l as [|x [|y r] IH]; simpl in *; [reflexivity| |].
  - now rewrite H.
  - now rewrite IH.
Qed.

(** ** Scenarios of the specification *)

(** Listing with [types=public_channel] over a cache with the public channel
    [C1] and the private channel [C2] selects [C1] alone. *)
Example listing_public_only :
  let c := mkCache
             [("C1", mkChannel "C1" "#general" false false false None None None);
              ("C2", mkChannel "C2" "#secret" true false false None None None)]
             [("#general", mkChannel "C1" "#general" false false false None None None);
              ("#secret", mkChannel "C2" "#secret" true false false None None None)]
             [] [] "acme" in
  let args := mkToolArgs (Some "public_channel") None None None None None None
                         None None in
  List.map id (listedChannels c (Some args)) = ["C1"].
Proof. reflexivity. Qed.

(** A build over three channel pages with cursors [A], [B], [C] stores the
    records of all three pages once each and asks for each cursor in turn. *)
Example three_pages_build :
  let sc := [ authReply "acme";
              channelsPage [rawChannel "C1" "a" false false] (Some "A");
              channelsPage [rawChannel "C2" "b" false false] (Some "B");
              channelsPage [rawChannel "C3" "c" false false] None;
              usersPage [] None ] in
  match buildCache sc with
  | (Ret c, w) =>
      map_keys (channelsById c) = ["C1"; "C2"; "C3"] /\
      map_keys (channelsByName c) = ["#a"; "#b"; "#c"] /\
      log w = [ AuthTest;
                ConversationsList "public_channel,private_channel" 1000 None;
                ConversationsList "public_channel,private_channel" 1000 (Some "A");
                ConversationsList "public_channel,private_channel" 1000 (Some "B");
                UsersList 1000 None ]
  | _ => False
  end.
Proof. cbv. repeat split. Qed.

(** A build completes on every script that holds the reply to [auth.test]
    and, for each of the two listings, pages that end with one without a
    cursor: here stated for one page each. *)
Lemma buildCache_completes (t : string) (chs : list RawChannel)
    (us : list RawUser) :
  exists c,
    buildCache [authReply t; channelsPage chs None; usersPage us None]
    = (Ret c, mkWorld [] [AuthTest;
                          ConversationsList "public_channel,private_channel" 1000 None;
                          UsersList 1000 None]).
Proof. eexists. unfold buildCache, loadCache, bind. simpl. reflexivity. Qed.

(** The paging loops are total: they wait for a response only when the
    script has none left. *)
Lemma loadChannelPages_starved (sc : list HttpResult) :
  forall cur lg c w,
    loadChannelPages sc cur lg c = (Starved, w) -> script w = [].
Proof.
  induction sc as [|r rest IH]; intros cur lg c w; simpl.
  - intros H. now inversion H.
  - destruct r as [msg|d]; simpl; [discriminate|].
    destruct (ok d); simpl; [|discriminate].
    destruct (continueWith (next_cursor d)); [apply IH | discriminate].
Qed.

Lemma loadUserPages_starved (sc : list HttpResult) :
  forall cur lg c w,
    loadUserPages sc cur lg c = (Starved, w) -> script w = [].
Proof.
  induction sc as [|r rest IH]; intros cur lg c w; simpl.
  - intros H. now inversion H.
  - destruct r as [msg|d]; simpl; [discriminate|].
    destruct (ok d); simpl; [|discriminate].
    destruct (continueWith (next_cursor d)); [apply IH | discriminate].
Qed.

(** * Further properties of the source *)

(** ** The listing loop *)





Lemma selectChannels_length (types : string) (limit : Z) (pending : list Channel) :
  forall acc,
    (Z.of_nat (List.length acc) < Z.max 1 limit)%Z ->
    List.length (selectChannels types limit pending acc)
    <= Z.to_nat (Z.max 1 limit).
Proof.
  induction pending as [|ch rest IH]; intros acc Hacc; simpl; [lia|].
  destruct (dm_flag ch); [now apply IH|].
  assert (Hstep : forall acc',
             List.length acc' <= S (List.length acc) ->
             List.length
               (if Z.geb (Z.of_nat (List.length acc')) limit then acc'
                else selectChannels types limit rest acc')
             <= Z.to_nat (Z.max 1 limit)).
  { intros acc' Hl.
    destruct (Z.geb (Z.of_nat (List.length acc')) limit) eqn:G.
    - lia.
    - rewrite Z.geb_leb, Z.leb_gt in G. apply IH. lia. }
  destruct (Js.includes types "public_channel" && negb (is_private ch));
    [|destruct (Js.includes types "private_channel" && is_private ch)];
    apply Hstep; rewrite ?length_app; simpl; lia.
Qed.

Lemma listLimit_le (args : option ToolArgs) : (listLimit args <= 1000)%Z.
Proof. unfold listLimit. lia. Qed.

(** X2. For a limit argument that is absent or an integer, the listing
    never returns more than 1000 channels: the effective limit is the
    requested one cut down to 1000, it is 100 when the arguments or the
    limit are missing or the limit is 0, the listing is never longer than
    the effective limit when that is positive, and it has at most one
    channel when the limit is negative. *)
Theorem listing_length_bounded (c : Cache) (args : option ToolArgs) :
  List.length (listedChannels c args) <= 1000 /\
  List.length (listedChannels c args) <= Z.to_nat (Z.max 1 (listLimit args)) /\
  (forall n, optArg args a_limit = Some n -> n <> 0%Z ->
             listLimit args = Z.min n 1000) /\
  (optArg args a_limit = None \/ optArg args a_limit = Some 0%Z ->
   listLimit args = 100%Z /\ List.length (listedChannels c args) <= 100).
Proof.
  assert (H : List.length (listedChannels c args)
              <= Z.to_nat (Z.max 1 (listLimit args)))
    by (apply selectChannels_length; simpl; lia).
  pose proof (listLimit_le args) as L.
  split; [lia|]. split; [exact H|]. split.
  - intros n E Hn. unfold listLimit. rewrite E. simpl.
    destruct (Z.eqb_spec n 0); [contradiction | reflexivity].
  - intros E.
    assert (E100 : listLimit args = 100%Z)
      by (unfold listLimit; destruct E as [-> | ->]; reflexivity).
    split; [exact E100|]. rewrite E100 in H. simpl in H. lia.
Qed.

Lemma selectChannels_wanted (types : string) (limit : Z) (pending : list Channel) :
  forall acc ch,
    In ch (selectChannels types limit pending acc) ->
    In ch acc \/ (In ch pending /\ wantedType types ch = true).
Proof.
  induction pending as [|p rest IH]; intros acc ch; simpl; [auto|].
  destruct (dm_flag p).
  - intros H. apply IH in H. tauto.
  - unfold wantedType.
    destruct (Js.includes types "public_channel" && negb (is_private p)) eqn:A;
      [|destruct (Js.includes types "private_channel" && is_private p) eqn:B];
      match goal with
      | |- context [Z.geb ?a ?b] => destruct (Z.geb a b)
      end;
      intros H; try apply IH in H; try rewrite in_app_iff in H; simpl in H;
      try (destruct H as [[H|[H|[]]]|H]); try (destruct H as [H|[H|[]]]);
      try subst p; try rewrite A; try rewrite B; simpl; tauto.
Qed.

(** ** The type filter *)

Lemma requestedTypeList_allowed (args : option ToolArgs) :
  Forall (fun t => t = "public_channel" \/ t = "private_channel")
         (requestedTypeList args).
Proof.
  unfold requestedTypeList. apply Forall_forall. intros t H.
  apply filter_In in H as [_ H]. apply orb_true_iff in H.
  destruct H as [H|H]; apply String.eqb_eq in H; auto.
Qed.

Lemma concat_cons2 (sep x y : string) (l : list string) :
  String.concat sep (x :: y :: l) = x ++ sep ++ String.concat sep (y :: l).
Proof. reflexivity. Qed.

Lemma includes_joined_public (l : list string) :
  Forall (fun t => t = "public_channel" \/ t = "private_channel") l ->
  Js.includes (Js.join "," l) "public_channel" = true -> In "public_channel" l.
Proof.
  induction 1 as [|t l Ht Hl IH]; [discriminate|].
  destruct Ht as [->| ->]; [simpl; auto|].
  intros H. right. apply IH. clear IH Hl.
  destruct l as [|u l]; [discriminate H|].
  unfold Js.join in *. rewrite concat_cons2 in H.
  remember (String.concat "," (u :: l)) as rest eqn:Er. clear Er.
  unfold Js.includes in *. simpl in H.
  destruct (String.index 0 "public_channel" rest); [reflexivity | simpl in H; discriminate H].
Qed.

Lemma includes_joined_private (l : list string) :
  Forall (fun t => t = "public_channel" \/ t = "private_channel") l ->
  Js.includes (Js.join "," l) "private_channel" = true -> In "private_channel" l.
Proof.
  induction 1 as [|t l Ht Hl IH]; [discriminate|].
  destruct Ht as [->| ->]; [|simpl; auto].
  intros H. right. apply IH. clear IH Hl.
  destruct l as [|u l]; [discriminate H|].
  unfold Js.join in *. rewrite concat_cons2 in H.
  remember (String.concat "," (u :: l)) as rest eqn:Er. clear Er.
  unfold Js.includes in *. simpl in H.
  destruct (String.index 0 "private_channel" rest); [reflexivity | simpl in H; discriminate H].
Qed.

(** X3. The listing respects the requested types: a private channel is
    listed only when [private_channel] is among the comma-separated types, a
    public one only when [public_channel] is; when the request names
    neither (only other types, such as [im] or [mpim]) nothing is listed. *)
Theorem listing_respects_types (c : Cache) (args : option ToolArgs) :
  (forall ch,
      In ch (listedChannels c args) ->
      if is_private ch then In "private_channel" (requestedTypeList args)
      else In "public_channel" (requestedTypeList args)) /\
  (requestedTypeList args = [] -> listedChannels c args = []).
Proof.
  assert (Hw : forall ch,
             In ch (listedChannels c args) ->
             wantedType (requestedTypes args) ch = true).
  { intros ch H. apply selectChannels_wanted in H as [[]|[_ H]]. exact H. }
  split.
  - intros ch H. apply Hw in H. unfold wantedType in H.
    pose proof (requestedTypeList_allowed args) as Hall.
    change (requestedTypes args) with (Js.join "," (requestedTypeList args)) in H.
    destruct (is_private ch); simpl in H.
    + rewrite andb_false_r, andb_true_r in H. simpl in H.
      now apply includes_joined_private.
    + rewrite andb_false_r, andb_true_r, orb_false_r in H.
      now apply includes_joined_public.
  - intros He. destruct (listedChannels c args) as [|ch l] eqn:E; [reflexivity|].
    assert (H : wantedType (requestedTypes args) ch = true)
      by (apply Hw; now left).
    change (requestedTypes args) with (Js.join "," (requestedTypeList args)) in H.
    rewrite He in H. discriminate H.
Qed.

(** ** The tables after a build *)

Lemma buildCache_get (sc : list HttpResult) (c : Cache) (w : World)
    (k : string) :
  buildCache sc = (Ret c, w) ->
  map_get k (channelsById c)
  = option_map toChannel
      (find_last (fun r => String.eqb (ch_id r) k) (channelRecords sc)) /\
  map_get k (channelsByName c)
  = option_map toChannel
      (find_last (fun r => String.eqb ("#" ++ ch_name r) k) (channelRecords sc)) /\
  map_get k (usersById c)
  = option_map toUser
      (find_last (fun r => String.eqb (u_id r) k) (userRecords sc)) /\
  map_get k (usersByName c)
  = option_map toUser
      (find_last (fun r => String.eqb ("@" ++ u_name r) k) (userRecords sc)).
Proof.
  intros Hb. apply buildCache_tables in Hb as (Ei & En & Ui & Un).
  rewrite Ei, En, Ui, Un. rewrite !get_setAll.
  repeat split; match goal with |- context [find_last ?p ?l] =>
                                  now destruct (find_last p l) end.
Qed.

Lemma option_map_some {A B} (f : A -> B) (o : option A) (b : B) :
  option_map f o = Some b -> exists a, o = Some a /\ b = f a.
Proof. destruct o as [a|]; [|discriminate]. intros H. inversion H. eauto. Qed.

(** X4. After a completed build, looking a key up gives the last record the
    script delivered under that key, over all pages, and nothing when no
    record has it: channels by id and by [#]name, kept users by id and by
    [@]handle. *)
Theorem build_last_record_wins (sc : list HttpResult) (c : Cache) (w : World)
    (k : string) :
  buildCache sc = (Ret c, w) ->
  map_get k (channelsById c)
  = option_map toChannel
      (find_last (fun r => String.eqb (ch_id r) k) (channelRecords sc)) /\
  map_get k (channelsByName c)
  = option_map toChannel
      (find_last (fun r => String.eqb ("#" ++ ch_name r) k) (channelRecords sc)) /\
  map_get k (usersById c)
  = option_map toUser
      (find_last (fun r => String.eqb (u_id r) k) (userRecords sc)) /\
  map_get k (usersByName c)
  = option_map toUser
      (find_last (fun r => String.eqb ("@" ++ u_name r) k) (userRecords sc)).
Proof.
  intros Hb. apply buildCache_tables in Hb as (Ei & En & Ui & Un).
  rewrite Ei, En, Ui, Un. rewrite !get_setAll.
  repeat split; match goal with |- context [find_last ?p ?l] =>
                                  now destruct (find_last p l) end.
Qed.

Lemma build_last_record_wins_witness :
  map_get "C100" (channelsById demoCache)
  = Some (mkChannel "C100" "#general" false false false None None None) /\
  map_get "#nope" (channelsByName demoCache) = None.
Proof.
  destruct (build_last_record_wins demoScript demoCache
              (snd (buildCache demoScript)) "C100" eq_refl) as (H1 & _).
  destruct (build_last_record_wins demoScript demoCache
              (snd (buildCache demoScript)) "#nope" eq_refl) as (_ & H2 & _).
  split; [exact H1 | exact H2].
Defined.

Lemma hash_prefix (s : string) : Js.startsWith ("#" ++ s) "#" = true.
Proof. apply startsWith_char. now exists s. Qed.

(** X5. In a built cache every channel is stored under its own id in the
    by-id table and under its own name in the by-name table, and that name
    starts with [#]; every user is stored under its own id and under [@]
    followed by its handle. *)
Theorem build_keys_are_ids_and_names (sc : list HttpResult) (c : Cache)
    (w : World) :
  buildCache sc = (Ret c, w) ->
  (forall k ch, map_get k (channelsById c) = Some ch ->
                id ch = k /\ Js.startsWith (name ch) "#" = true) /\
  (forall k ch, map_get k (channelsByName c) = Some ch ->
                name ch = k /\ Js.startsWith k "#" = true) /\
  (forall k u, map_get k (usersById c) = Some u -> user_id u = k) /\
  (forall k u, map_get k (usersByName c) = Some u -> "@" ++ user_name u = k).
Proof.
  intros Hb. split; [|split; [|split]]; intros k v H;
    destruct (buildCache_get sc c w k Hb) as (H1 & H2 & H3 & H4).
  - rewrite H1 in H. apply option_map_some in H as (r & E & ->).
    apply find_last_some in E as [_ E]. apply String.eqb_eq in E.
    split; [exact E | apply hash_prefix].
  - rewrite H2 in H. apply option_map_some in H as (r & E & ->).
    apply find_last_some in E as [_ E]. apply String.eqb_eq in E.
    split; [exact E | subst k; apply hash_prefix].
  - rewrite H3 in H. apply option_map_some in H as (r & E & ->).
    apply find_last_some in E as [_ E]. now apply String.eqb_eq in E.
  - rewrite H4 in H. apply option_map_some in H as (r & E & ->).
    apply find_last_some in E as [_ E]. now apply String.eqb_eq in E.
Qed.

Lemma build_keys_are_ids_and_names_witness :
  (forall k ch, map_get k (channelsById demoCache) = Some ch ->
                id ch = k /\ Js.startsWith (name ch) "#" = true) /\
  (forall k ch, map_get k (channelsByName demoCache) = Some ch ->
                name ch = k /\ Js.startsWith k "#" = true) /\
  (forall k u, map_get k (usersById demoCache) = Some u -> user_id u = k) /\
  (forall k u, map_get k (usersByName demoCache) = Some u ->
               "@" ++ user_name u = k).
Proof.
  exact (build_keys_are_ids_and_names demoScript demoCache
           (snd (buildCache demoScript)) eq_refl).
Defined.

Lemma find_last_none {A} (p : A -> bool) (l : list A) :
  (forall x, In x l -> p x = false) -> find_last p l = None.
Proof.
  induction l as [|x l IH]; intros H; simpl; [reflexivity|].
  rewrite IH by (intros y Hy; apply H; now right).
  now rewrite (H x) by now left.
Qed.

(** X6. Deleted and bot accounts never enter the user tables: every cached
    user comes from a delivered record that is neither, and an id whose
    records are all deleted or bots is absent, so that [getUserName] gives
    the id back. *)
Theorem build_skips_deleted_and_bots (sc : list HttpResult) (c : Cache)
    (w : World) :
  buildCache sc = (Ret c, w) ->
  let delivered := flat_map (fun p => listOr (members p)) (userPages sc) in
  (forall k u,
      map_get k (usersById c) = Some u \/ map_get k (usersByName c) = Some u ->
      exists r, In r delivered /\ Js.boolOr (u_deleted r) = false /\
                Js.boolOr (u_is_bot r) = false /\ u = toUser r) /\
  (forall uid,
      (forall r, In r delivered -> u_id r = uid ->
                 Js.boolOr (u_deleted r) || Js.boolOr (u_is_bot r) = true) ->
      map_get uid (usersById c) = None /\ getUserName c uid = uid).
Proof.
  intros Hb delivered. split.
  - intros k u H.
    destruct (buildCache_get sc c w k Hb) as (_ & _ & H3 & H4).
    assert (E : exists r, In r (userRecords sc) /\ u = toUser r).
    { destruct H as [H|H]; [rewrite H3 in H | rewrite H4 in H];
        apply option_map_some in H as (r & E & ->);
        apply find_last_some in E as [E _]; eauto. }
    destruct E as (r & Hin & ->). exists r.
    unfold userRecords in Hin. apply filter_In in Hin as [Hin Hk].
    apply negb_true_iff in Hk. unfold skippedUser in Hk.
    apply orb_false_iff in Hk as [Hd Hbot]. auto.
  - intros uid H.
    destruct (buildCache_get sc c w uid Hb) as (_ & _ & H3 & _).
    assert (N : map_get uid (usersById c) = None).
    { rewrite H3, find_last_none; [reflexivity|].
      intros r Hin. unfold userRecords in Hin.
      apply filter_In in Hin as [Hin Hk]. apply negb_true_iff in Hk.
      destruct (String.eqb (u_id r) uid) eqn:E; [|reflexivity].
      apply String.eqb_eq in E. unfold skippedUser in Hk.
      rewrite (H r Hin E) in Hk. discriminate Hk. }
    split; [exact N|]. unfold getUserName. now rewrite N.
Qed.

Lemma build_skips_deleted_and_bots_witness :
  let sc := [ authReply "acme"; channelsPage [] None;
              usersPage [mkRawUser "U9" "gone" (Some true) None (Some "Gone");
                         mkRawUser "B1" "bot" None (Some true) None;
                         rawUser "U1" "alice" None] None ] in
  match fst (buildCache sc) with
  | Ret c => getUserName c "U9" = "U9" /\ getUserName c "B1" = "B1"
  | _ => False
  end.
Proof.
  intros sc.
  destruct (buildCache sc) as [[c| |] w] eqn:E; try discriminate E.
  pose proof (build_skips_deleted_and_bots sc c w E) as [_ H]. simpl.
  split; apply H; intros r Hin Hid; cbv in Hin;
    destruct Hin as [<-|[<-|[<-|[]]]]; try reflexivity; discriminate Hid.
Defined.

(** ** The calls and the failures of a build *)

Lemma loadChannelPages_log (sc : list HttpResult) :
  forall cur lg c c' w,
    loadChannelPages sc cur lg c = (Ret c', w) ->
    log w = (lg ++ pageCalls (ConversationsList "public_channel,private_channel" 1000)
                             cur (fst (pagesRead sc)))%list.
Proof.
  induction sc as [|r rest IH]; intros cur lg c c' w; simpl; [discriminate|].
  destruct (slackApiReply r) as [result| |]; try discriminate.
  destruct (continueWith (next_cursor result)) as [cur'|] eqn:Ec.
  - intros H. apply IH in H. rewrite H.
    destruct (pagesRead rest) as [ps rem]. simpl.
    rewrite Ec, <- app_assoc. reflexivity.
  - intros H. inversion H; subst. reflexivity.
Qed.

Lemma loadUserPages_log (sc : list HttpResult) :
  forall cur lg c c' w,
    loadUserPages sc cur lg c = (Ret c', w) ->
    log w = (lg ++ pageCalls (UsersList 1000) cur (fst (pagesRead sc)))%list.
Proof.
  induction sc as [|r rest IH]; intros cur lg c c' w; simpl; [discriminate|].
  destruct (slackApiReply r) as [result| |]; try discriminate.
  destruct (continueWith (next_cursor result)) as [cur'|] eqn:Ec.
  - intros H. apply IH in H. rewrite H.
    destruct (pagesRead rest) as [ps rem]. simpl.
    rewrite Ec, <- app_assoc. reflexivity.
  - intros H. inversion H; subst. reflexivity.
Qed.

(** The pages a completed loop read: all but the last carry a truthy
    cursor, the last carries none. *)
Lemma loadChannelPages_stops (sc : list HttpResult) :
  forall cur lg c c' w,
    loadChannelPages sc cur lg c = (Ret c', w) ->
    exists ps p,
      fst (pagesRead sc) = (ps ++ [p])%list /\
      Forall (fun q => continueWith (next_cursor q) <> None) ps /\
      continueWith (next_cursor p) = None.
Proof.
  induction sc as [|r rest IH]; intros cur lg c c' w; simpl; [discriminate|].
  destruct (slackApiReply r) as [result| |]; try discriminate.
  destruct (continueWith (next_cursor result)) as [cur'|] eqn:Ec.
  - intros H. apply IH in H as (ps & p & E & Hf & Hl).
    destruct (pagesRead rest) as [ps' rem]. simpl in *. subst ps'.
    exists (result :: ps), p. repeat split; auto. constructor; [congruence|auto].
  - intros _. exists [], result. repeat split; auto.
Qed.

Lemma loadUserPages_stops (sc : list HttpResult) :
  forall cur lg c c' w,
    loadUserPages sc cur lg c = (Ret c', w) ->
    exists ps p,
      fst (pagesRead sc) = (ps ++ [p])%list /\
      Forall (fun q => continueWith (next_cursor q) <> None) ps /\
      continueWith (next_cursor p) = None.
Proof.
  induction sc as [|r rest IH]; intros cur lg c c' w; simpl; [discriminate|].
  destruct (slackApiReply r) as [result| |]; try discriminate.
  destruct (continueWith (next_cursor result)) as [cur'|] eqn:Ec.
  - intros H. apply IH in H as (ps & p & E & Hf & Hl).
    destruct (pagesRead rest) as [ps' rem]. simpl in *. subst ps'.
    exists (result :: ps), p. repeat split; auto. constructor; [congruence|auto].
  - intros _. exists [], result. repeat split; auto.
Qed.

(** X7. A completed build sends [auth.test] first, then one
    [conversations.list] per channel page, always for the types
    [public_channel,private_channel] with limit 1000, then one [users.list]
    per user page, and nothing else; the first call of each listing carries
    no cursor and every later one the cursor of the page before it. Each
    listing is read up to the first page without a truthy cursor. *)
Theorem build_calls_follow_cursors (sc : list HttpResult) (c : Cache)
    (w : World) :
  buildCache sc = (Ret c, w) ->
  log w =
    (AuthTest
     :: pageCalls (ConversationsList "public_channel,private_channel" 1000)
                  None (channelPages sc)
     ++ pageCalls (UsersList 1000) None (userPages sc))%list /\
  (exists ps p,
      channelPages sc = (ps ++ [p])%list /\
      Forall (fun q => continueWith (next_cursor q) <> None) ps /\
      continueWith (next_cursor p) = None) /\
  (exists ps p,
      userPages sc = (ps ++ [p])%list /\
      Forall (fun q => continueWith (next_cursor q) <> None) ps /\
      continueWith (next_cursor p) = None) /\
  script w = snd (pagesRead (snd (pagesRead (List.tl sc)))).
Proof.
  unfold buildCache, loadCache, bind, slackApi, channelPages, userPages.
  destruct sc as [|r sc1]; simpl; [discriminate|].
  destruct (slackApiReply r) as [auth| |]; try discriminate.
  unfold loadChannels; simpl.
  destruct (loadChannelPages sc1 None [AuthTest] _) as [[c1| |] w1] eqn:E1;
    try discriminate.
  pose proof (loadChannelPages_log _ _ _ _ _ _ E1) as L1.
  pose proof (loadChannelPages_stops _ _ _ _ _ _ E1) as S1.
  apply loadChannelPages_ret in E1 as [_ Hw1].
  unfold loadUsers. rewrite Hw1. intros E2.
  pose proof (loadUserPages_log _ _ _ _ _ _ E2) as L2.
  pose proof (loadUserPages_stops _ _ _ _ _ _ E2) as S2.
  apply loadUserPages_ret in E2 as [_ Hw2].
  rewrite L2, L1. simpl. auto.
Qed.

Lemma build_calls_follow_cursors_witness :
  log (snd (buildCache demoScript)) =
    [ AuthTest;
      ConversationsList "public_channel,private_channel" 1000 None;
      ConversationsList "public_channel,private_channel" 1000 (Some "A");
      UsersList 1000 None ].
Proof.
  exact (proj1 (build_calls_follow_cursors demoScript demoCache
                  (snd (buildCache demoScript)) eq_refl)).
Defined.

Lemma slackApiReply_cases (r : HttpResult) :
  (exists d, slackApiReply r = Ret d /\ replyOk r = true) \/
  (exists msg, slackApiReply r = Throw msg /\ replyOk r = false).
Proof.
  destruct r as [msg|d]; simpl; [right; eauto|].
  destruct (ok d); [left | right]; eauto.
Qed.

Lemma consumedFor_cons {A} (o : Outcome A) (r : HttpResult)
    (consumed : list HttpResult) :
  replyOk r = true -> consumedFor o consumed -> consumedFor o (r :: consumed).
Proof.
  intros Hr. destruct o as [a|msg|]; simpl.
  - now constructor.
  - intros (pre & r' & -> & Hf & Ht). exists (r :: pre), r'.
    repeat split; auto.
  - now constructor.
Qed.

Lemma loadChannelPages_consumed (sc : list HttpResult) :
  forall cur lg c o w,
    loadChannelPages sc cur lg c = (o, w) ->
    exists consumed,
      sc = (consumed ++ script w)%list /\ consumedFor o consumed /\
      (o = Starved -> script w = []).
Proof.
  induction sc as [|r rest IH]; intros cur lg c o w; simpl.
  - intros H. inversion H; subst. exists []. simpl. auto.
  - destruct (slackApiReply_cases r) as [(d & E & Hok)|(msg & E & Hok)];
      rewrite E.
    + destruct (continueWith (next_cursor d)).
      * intros H. apply IH in H as (consumed & -> & Hc & Hs).
        exists (r :: consumed). repeat split; auto.
        now apply consumedFor_cons.
      * intros H. inversion H; subst. exists [r]. simpl.
        repeat split; auto. discriminate.
    + intros H. inversion H; subst. exists [r]. simpl. repeat split.
      * exists [], r. simpl. repeat split; auto.
      * discriminate.
Qed.

Lemma loadUserPages_consumed (sc : list HttpResult) :
  forall cur lg c o w,
    loadUserPages sc cur lg c = (o, w) ->
    exists consumed,
      sc = (consumed ++ script w)%list /\ consumedFor o consumed /\
      (o = Starved -> script w = []).
Proof.
  induction sc as [|r rest IH]; intros cur lg c o w; simpl.
  - intros H. inversion H; subst. exists []. simpl. auto.
  - destruct (slackApiReply_cases r) as [(d & E & Hok)|(msg & E & Hok)];
      rewrite E.
    + destruct (continueWith (next_cursor d)).
      * intros H. apply IH in H as (consumed & -> & Hc & Hs).
        exists (r :: consumed). repeat split; auto.
        now apply consumedFor_cons.
      * intros H. inversion H; subst. exists [r]. simpl.
        repeat split; auto. discriminate.
    + intros H. inversion H; subst. exists [r]. simpl. repeat split.
      * exists [], r. simpl. repeat split; auto.
      * discriminate.
Qed.

Lemma consumedFor_app {A} (o : Outcome A) (l1 l2 : list HttpResult) :
  Forall (fun r => replyOk r = true) l1 ->
  consumedFor o l2 -> consumedFor o (l1 ++ l2).
Proof.
  intros H1. destruct o as [a|msg|]; simpl.
  - intros H2. apply Forall_app; auto.
  - intros (pre & r & -> & Hf & Ht). exists (l1 ++ pre)%list, r.
    rewrite app_assoc. repeat split; auto. apply Forall_app; auto.
  - intros H2. apply Forall_app; auto.
Qed.

(** X8. A build stops at the first response that is not a successful reply
    and throws its error: whatever the outcome, the responses consumed
    before were all successful; a build that returns a cache consumed
    successful replies only, and a build that throws consumed exactly one
    failing response, the last one, whose error it throws. A build waits
    for a response only when the script is exhausted. *)
Theorem build_stops_at_first_failure (sc : list HttpResult)
    (o : Outcome Cache) (w : World) :
  buildCache sc = (o, w) ->
  exists consumed,
    sc = (consumed ++ script w)%list /\ consumedFor o consumed /\
    (o = Starved -> script w = []).
Proof.
  unfold buildCache, loadCache, bind, slackApi.
  destruct sc as [|r sc1]; simpl.
  - intros H. inversion H; subst. exists []. simpl. auto.
  - destruct (slackApiReply_cases r) as [(d & E & Hok)|(msg & E & Hok)];
      rewrite E.
    + unfold loadChannels; simpl.
      destruct (loadChannelPages sc1 None [AuthTest] _) as [o1 w1] eqn:E1.
      apply loadChannelPages_consumed in E1 as (k1 & -> & C1 & S1).
      destruct o1 as [c1|msg|].
      * unfold loadUsers. intros E2.
        apply loadUserPages_consumed in E2 as (k2 & E2 & C2 & S2).
        exists (r :: k1 ++ k2)%list. rewrite E2. simpl. rewrite <- app_assoc.
        repeat split; auto.
        apply (consumedFor_app o (r :: k1) k2); [now constructor | exact C2].
      * intros H. inversion H; subst. exists (r :: k1).
        split; [reflexivity|]. split; [|discriminate].
        now apply (@consumedFor_cons Cache (Throw msg)).
      * intros H. inversion H; subst. exists (r :: k1).
        split; [reflexivity|]. split; [|exact S1].
        now apply (@consumedFor_cons Cache Starved).
    + intros H. inversion H; subst. exists [r].
      split; [reflexivity|]. split; [|discriminate].
      exists [], r. auto.
Qed.

Lemma build_stops_at_first_failure_witness :
  let failing :=
    HttpReply (mkApiData false (Some "ratelimited") None None None None None
                         false None None None) in
  let sc := [authReply "acme"; failing; usersPage [] None] in
  buildCache sc
  = (Throw "Slack API error: ratelimited",
     mkWorld [usersPage [] None]
             [AuthTest;
              ConversationsList "public_channel,private_channel" 1000 None]) /\
  exists consumed,
    sc = (consumed ++ [usersPage [] None])%list /\
    consumedFor (@Throw Cache "Slack API error: ratelimited") consumed.
Proof.
  intros failing sc. split; [reflexivity|].
  destruct (build_stops_at_first_failure sc
              (Throw "Slack API error: ratelimited")
              (mkWorld [usersPage [] None]
                 [AuthTest;
                  ConversationsList "public_channel,private_channel" 1000 None])
              eq_refl) as (consumed & E & C & _).
  exists consumed. split; [exact E | exact C].
Defined.

(** ** Keys of a table are distinct *)

Section Keys.
Context {V : Type}.

Lemma map_set_keys_in (k k' : string) (v : V) (m : JsMap V) :
  In k' (map_keys (map_set k v m)) <-> k' = k \/ In k' (map_keys m).
Proof.
  unfold map_keys. induction m as [|[k0 v0] m IH]; simpl.
  - split; [intros [H|[]]; auto | intros [H|[]]; auto].
  - destruct (String.eqb k0 k) eqn:E; simpl.
    + apply String.eqb_eq in E. subst k0. intuition congruence.
    + rewrite IH. intuition congruence.
Qed.

Lemma map_set_keys_nodup (k : string) (v : V) (m : JsMap V) :
  NoDup (map_keys m) -> NoDup (map_keys (map_set k v m)).
Proof.
  unfold map_keys. induction m as [|[k0 v0] m IH]; simpl; intros H.
  - constructor; [intros [] | constructor].
  - inversion H as [|? ? Hn Hd]; subst.
    destruct (String.eqb k0 k) eqn:E; simpl.
    + apply String.eqb_eq in E. subst k0. now constructor.
    + constructor; [|now apply IH].
      intros Hin. apply (map_set_keys_in k k0 v m) in Hin as [Hin|Hin].
      * subst k0. rewrite String.eqb_refl in E. discriminate.
      * contradiction.
Qed.

Lemma map_get_in (k : string) (v : V) (m : JsMap V) :
  NoDup (map_keys m) -> In (k, v) m -> map_get k m = Some v.
Proof.
  unfold map_keys. induction m as [|[k0 v0] m IH]; simpl; intros Hd Hin; [tauto|].
  inversion Hd as [|? ? Hn Hd']; subst.
  destruct Hin as [Hin|Hin].
  - inversion Hin; subst. now rewrite String.eqb_refl.
  - destruct (String.eqb k0 k) eqn:E; [|now apply IH].
    apply String.eqb_eq in E. subst k0.
    exfalso. apply Hn. now apply (in_map fst) in Hin.
Qed.

End Keys.

Lemma setAll_keys_nodup {R V} (key : R -> string) (val : R -> V) (rs : list R) :
  forall m, NoDup (map_keys m) -> NoDup (map_keys (setAll key val rs m)).
Proof.
  unfold setAll. induction rs as [|r rs IH]; intros m H; simpl; [exact H|].
  apply IH. now apply map_set_keys_nodup.
Qed.

Lemma nodup_map_filter {A B} (f : A -> B) (p : A -> bool) (l : list A) :
  NoDup (List.map f l) -> NoDup (List.map f (List.filter p l)).
Proof.
  induction l as [|x l IH]; simpl; intros H; [constructor|].
  inversion H as [|? ? Hn Hd]; subst.
  destruct (p x); simpl; [|now apply IH].
  constructor; [|now apply IH].
  intros Hin. apply Hn. apply in_map_iff in Hin as (y & Ey & Hy).
  apply filter_In in Hy as [Hy _]. apply in_map_iff. eauto.
Qed.

Lemma selectChannels_nodup (types : string) (limit : Z) (pending : list Channel) :
  forall acc,
    NoDup (List.map id (acc ++ pending)) ->
    NoDup (List.map id (selectChannels types limit pending acc)).
Proof.
  induction pending as [|ch rest IH]; intros acc H; simpl.
  - now rewrite app_nil_r in H.
  - assert (Hskip : NoDup (List.map id (acc ++ rest))).
    { rewrite map_app in *. simpl in H. now apply NoDup_remove_1 in H. }
    assert (Hpush : NoDup (List.map id ((acc ++ [ch]) ++ rest)))
      by now rewrite <- app_assoc.
    assert (Hhere : NoDup (List.map id (acc ++ [ch]))).
    { rewrite map_app in Hpush. now apply NoDup_app_remove_r in Hpush. }
    assert (Hacc : NoDup (List.map id acc)).
    { rewrite map_app in Hskip. now apply NoDup_app_remove_r in Hskip. }
    destruct (dm_flag ch); [now apply IH|].
    destruct (Js.includes types "public_channel" && negb (is_private ch));
      [|destruct (Js.includes types "private_channel" && is_private ch)];
      match goal with
      | |- context [Z.geb ?a ?b] => destruct (Z.geb a b)
      end; auto.
Qed.

(** X9. In a built cache no two entries of the by-id table have the same
    id, so neither the listing nor the channels resource shows an id twice,
    however often the script delivered it. *)
Theorem listing_has_distinct_ids (sc : list HttpResult) (c : Cache) (w : World)
    (args : option ToolArgs) :
  buildCache sc = (Ret c, w) ->
  NoDup (List.map id (map_values (channelsById c))) /\
  NoDup (List.map id (listedChannels c args)) /\
  NoDup (List.map id (resourceChannels c)).
Proof.
  intros Hb.
  assert (Hk : NoDup (map_keys (channelsById c))).
  { destruct (buildCache_tables sc c w Hb) as (Ei & _). rewrite Ei.
    apply setAll_keys_nodup. constructor. }
  assert (Hv : List.map id (map_values (channelsById c))
               = map_keys (channelsById c)).
  { unfold map_values, map_keys. rewrite map_map. apply map_ext_in.
    intros [k ch] Hin. simpl.
    apply (map_get_in k ch _ Hk) in Hin.
    destruct (buildCache_get sc c w k Hb) as (H1 & _).
    rewrite H1 in Hin. apply option_map_some in Hin as (r & E & ->).
    apply find_last_some in E as [_ E]. now apply String.eqb_eq in E. }
  assert (Hd : NoDup (List.map id (map_values (channelsById c))))
    by now rewrite Hv.
  split; [exact Hd|]. split.
  - apply selectChannels_nodup. exact Hd.
  - unfold resourceChannels. now apply nodup_map_filter.
Qed.

Lemma listing_has_distinct_ids_witness :
  let sc := [ authReply "acme";
              channelsPage [rawChannel "C1" "a" false false] (Some "A");
              channelsPage [rawChannel "C1" "a" false false;
                            rawChannel "C2" "b" false false] None;
              usersPage [] None ] in
  match fst (buildCache sc) with
  | Ret c => NoDup (List.map id (listedChannels c None))
             /\ List.map id (listedChannels c None) = ["C1"; "C2"]
  | _ => False
  end.
Proof.
  intros sc.
  destruct (buildCache sc) as [[c| |] w] eqn:E; try discriminate E.
  simpl. split.
  - exact (proj1 (proj2 (listing_has_distinct_ids sc c w None E))).
  - inversion E. reflexivity.
Defined.

(** ** The calls of a tool request *)

Lemma resolve_never_starved (c : Cache) (x : string) :
  resolveChannelId c x <> Starved.
Proof.
  destruct (targetBlocked c x) eqn:Eb.
  - rewrite (resolve_blocked c x Eb). discriminate.
  - rewrite (resolve_not_blocked c x Eb).
    destruct (Js.startsWith x "#"); [|discriminate].
    destruct (map_get x (channelsByName c)); discriminate.
Qed.

Lemma call_then_ret_step {A} (k : Call) (f : ApiData -> A) (w : World)
    (o : Outcome A) (w' : World) :
  (result <- slackApi k ;; ret (f result)) w = (o, w') ->
  log w' = (log w ++ [k])%list /\ script w' = List.tl (script w) /\
  answered w o.
Proof.
  unfold bind, ret, slackApi, answered.
  destruct (script w) as [|r rest]; simpl.
  - intros H. inversion H; subst. auto.
  - destruct (slackApiReply_cases r) as [(d & E & _)|(msg & E & _)];
      rewrite E; intros H; inversion H; subst; simpl; eauto.
Qed.

Ltac stopped :=
  let H := fresh in
  intros H; inversion H; subst; left; split; [reflexivity|discriminate].

Lemma history_step (cfg : Config) (c : Cache) (args : option ToolArgs)
    (w : World) (o : Outcome string) (w' : World) :
  handleConversationsHistory c args w = (o, w') ->
  stepOf w o w' (sentBy cfg c "conversations_history" args).
Proof.
  unfold handleConversationsHistory, needArgs.
  destruct args as [a|]; [|stopped].
  unfold bind at 1 2. unfold ret at 1, lift. unfold resolveChannelArg.
  destruct (a_channel_id a) as [x|] eqn:Ex; [|stopped].
  destruct (resolveChannelId c x) as [ch|msg|] eqn:Er;
    [|stopped|now apply resolve_never_starved in Er].
  intros H. apply call_then_ret_step in H as (Hl & Hs & Ha). right.
  exists (ConversationsHistory ch (pageLimit a) (a_cursor a)).
  repeat split; auto. exists a. repeat split; eauto.
Qed.

Lemma replies_step (cfg : Config) (c : Cache) (args : option ToolArgs)
    (w : World) (o : Outcome string) (w' : World) :
  handleConversationsReplies c args w = (o, w') ->
  stepOf w o w' (sentBy cfg c "conversations_replies" args).
Proof.
  unfold handleConversationsReplies, needArgs.
  destruct args as [a|]; [|stopped].
  unfold bind at 1 2. unfold ret at 1, lift. unfold resolveChannelArg.
  destruct (a_channel_id a) as [x|] eqn:Ex; [|stopped].
  destruct (resolveChannelId c x) as [ch|msg|] eqn:Er;
    [|stopped|now apply resolve_never_starved in Er].
  intros H. apply call_then_ret_step in H as (Hl & Hs & Ha). right.
  exists (ConversationsReplies ch (a_thread_ts a) (pageLimit a) (a_cursor a)).
  repeat split; auto. exists a. repeat split; eauto.
Qed.

Lemma searchChannelClause_never_starved (c : Cache) (a : ToolArgs)
    (q : option string) :
  searchChannelClause c a q <> Starved.
Proof.
  unfold searchChannelClause.
  destruct (a_channel a) as [ch|]; [|discriminate].
  destruct (Js.truthy ch); [|discriminate].
  destruct (resolveChannelId c ch) as [y|msg|] eqn:Er;
    [|discriminate|now apply resolve_never_starved in Er].
  destruct (map_get y (channelsById c)); discriminate.
Qed.

Lemma search_step (cfg : Config) (c : Cache) (args : option ToolArgs)
    (w : World) (o : Outcome string) (w' : World) :
  handleConversationsSearch c args w = (o, w') ->
  stepOf w o w' (sentBy cfg c "conversations_search" args).
Proof.
  unfold handleConversationsSearch, needArgs.
  destruct args as [a|]; [|stopped].
  unfold bind at 1 2. unfold ret at 1, lift.
  destruct (searchChannelClause c a (a_query a)) as [q1|msg|] eqn:Eq;
    [|stopped|now apply searchChannelClause_never_starved in Eq].
  intros H. apply call_then_ret_step in H as (Hl & Hs & Ha). right.
  exists (SearchMessages (searchUserClause c a q1)
                         (Z.min (Js.numOr (a_limit a) 20) 100)).
  repeat split; auto. exists a. repeat split; eauto.
Qed.

Lemma addMessage_step (cfg : Config) (c : Cache) (args : option ToolArgs)
    (w : World) (o : Outcome string) (w' : World) :
  handleAddMessage cfg c args w = (o, w') ->
  stepOf w o w' (sentBy cfg c "conversations_add_message" args).
Proof.
  unfold handleAddMessage, needArgs.
  destruct (postingDisabled cfg) eqn:Ed; [stopped|].
  destruct args as [a|]; [|stopped].
  unfold bind at 1 2. unfold ret at 1, lift. unfold resolveChannelArg.
  destruct (a_channel_id a) as [x|] eqn:Ex; [|stopped].
  destruct (resolveChannelId c x) as [ch|msg|] eqn:Er;
    [|stopped|now apply resolve_never_starved in Er].
  destruct (offAllowList cfg ch) eqn:Eo; [stopped|].
  intros H. apply call_then_ret_step in H as (Hl & Hs & Ha). right.
  exists (ChatPostMessage ch (a_text a) (a_thread_ts a)).
  repeat split; auto. exists a. repeat split; eauto.
Qed.

Lemma toolHandler_step (cfg : Config) (c : Cache) (tool : string)
    (args : option ToolArgs) (w : World) (o : Outcome string) (w' : World) :
  toolHandler cfg c tool args w = (o, w') ->
  stepOf w o w' (sentBy cfg c tool args).
Proof.
  unfold toolHandler.
  destruct (String.eqb tool "channels_list") eqn:E1; [stopped|].
  destruct (String.eqb tool "conversations_history") eqn:E2;
    [apply String.eqb_eq in E2; subst; apply history_step|].
  destruct (String.eqb tool "conversations_replies") eqn:E3;
    [apply String.eqb_eq in E3; subst; apply replies_step|].
  destruct (String.eqb tool "conversations_search") eqn:E4;
    [apply String.eqb_eq in E4; subst; apply search_step|].
  destruct (String.eqb tool "conversations_add_message") eqn:E5;
    [apply String.eqb_eq in E5; subst; apply addMessage_step|].
  stopped.
Qed.

Lemma callTool_caught (cfg : Config) (c : Cache) (tool : string)
    (args : option ToolArgs) (w : World) :
  callTool cfg c tool args w =
    (caught (fst (toolHandler cfg c tool args w)),
     snd (toolHandler cfg c tool args w)).
Proof.
  unfold callTool. now destruct (toolHandler cfg c tool args w) as [[|msg|] w1].
Qed.

Lemma callTool_step (cfg : Config) (c : Cache) (tool : string)
    (args : option ToolArgs) (w : World) (o : Outcome ToolResult) (w' : World) :
  callTool cfg c tool args w = (o, w') ->
  exists o1, o = caught o1 /\ stepOf w o1 w' (sentBy cfg c tool args).
Proof.
  rewrite callTool_caught. intros H. inversion H; subst.
  eexists. split; [reflexivity|].
  apply toolHandler_step. apply surjective_pairing.
Qed.

Lemma app_one_neq {A} (l : list A) (x : A) : l <> (l ++ [x])%list.
Proof.
  intros H. apply (f_equal (@List.length A)) in H.
  rewrite length_app in H. simpl in H. lia.
Qed.

Lemma sentBy_tool (cfg : Config) (c : Cache) (tool : string)
    (args : option ToolArgs) (k : Call) :
  sentBy cfg c tool args k -> toolOfCall k = Some tool.
Proof.
  intros (a & _ & H). destruct k; simpl in *; try contradiction;
    destruct H as [-> _]; reflexivity.
Qed.

(** X10. A tool request sends at most one call and takes at most one
    response; the call is of the method of the requested tool, so a build
    call is never repeated and only [conversations_add_message] posts;
    [channels_list] and unknown tools send nothing. *)
Theorem tool_request_sends_one_call_of_its_kind (cfg : Config) (c : Cache)
    (tool : string) (args : option ToolArgs) (w : World)
    (o : Outcome ToolResult) (w' : World) :
  callTool cfg c tool args w = (o, w') ->
  (w' = w \/
   exists k, log w' = (log w ++ [k])%list /\ script w' = List.tl (script w) /\
             toolOfCall k = Some tool) /\
  (tool <> "conversations_history" ->
   tool <> "conversations_replies" ->
   tool <> "conversations_search" ->
   tool <> "conversations_add_message" ->
   w' = w).
Proof.
  intros H. destruct (callTool_step cfg c tool args w o w' H) as (o1 & _ & S).
  split.
  - destruct S as [[S _]|(k & Hs & Hl & Hr & _)]; [now left|right].
    exists k. repeat split; auto. now apply sentBy_tool in Hs.
  - intros N1 N2 N3 N4.
    destruct S as [[S _]|(k & Hs & Hl & Hr & _)]; [exact S|].
    apply sentBy_tool in Hs.
    destruct k; simpl in Hs; inversion Hs; congruence.
Qed.

Lemma tool_request_sends_one_call_of_its_kind_witness :
  let w := mkWorld [messagesPage []; messagesPage []] [] in
  let cfg := mkConfig false None in
  snd (callTool cfg demoCache "channels_list" None w) = w /\
  snd (callTool cfg demoCache "no_such_tool" None w) = w /\
  (snd (callTool cfg demoCache "conversations_history"
                 (Some (targetArgs "C100")) w) = w \/
   exists k,
     log (snd (callTool cfg demoCache "conversations_history"
                        (Some (targetArgs "C100")) w)) = [k] /\
     script (snd (callTool cfg demoCache "conversations_history"
                           (Some (targetArgs "C100")) w)) = [messagesPage []] /\
     toolOfCall k = Some "conversations_history").
Proof.
  intros w cfg.
  split; [|split].
  - refine (proj2 (tool_request_sends_one_call_of_its_kind cfg demoCache
                     "channels_list" None w _ _ (surjective_pairing _))
                  _ _ _ _); discriminate.
  - refine (proj2 (tool_request_sends_one_call_of_its_kind cfg demoCache
                     "no_such_tool" None w _ _ (surjective_pairing _))
                  _ _ _ _); discriminate.
  - exact (proj1 (tool_request_sends_one_call_of_its_kind cfg demoCache
                    "conversations_history" (Some (targetArgs "C100")) w _ _
                    (surjective_pairing _))).
Defined.

Lemma new_call_unique (w w' : World) (k k' : Call) :
  log w' = (log w ++ [k])%list -> log w' = (log w ++ [k'])%list -> k = k'.
Proof.
  intros H1 H2. rewrite H1 in H2. apply app_inv_head in H2. now inversion H2.
Qed.

Lemma offAllowList_false (cfg : Config) (ch : string) :
  offAllowList cfg ch = false ->
  forall allowed, ALLOWED_CHANNELS cfg = Some allowed -> In ch allowed.
Proof.
  unfold offAllowList. intros H allowed E. rewrite E in H.
  apply negb_false_iff in H. now apply arrayIncludes_In.
Qed.

(** X11. A message is posted only by [conversations_add_message], only when
    the flag is set or an allow-list is configured, only to the id the
    requested target resolved to, which is no blocked target, and, when an
    allow-list is configured, only to an id on that list. *)
Theorem post_only_when_enabled_and_allowed (cfg : Config) (c : Cache)
    (tool : string) (args : option ToolArgs) (w : World)
    (o : Outcome ToolResult) (w' : World) (ch : string) (txt ts : option string) :
  callTool cfg c tool args w = (o, w') ->
  log w' = (log w ++ [ChatPostMessage ch txt ts])%list ->
  tool = "conversations_add_message" /\
  (ADD_MESSAGE_ENABLED cfg = true \/ ALLOWED_CHANNELS cfg <> None) /\
  (forall allowed, ALLOWED_CHANNELS cfg = Some allowed -> In ch allowed) /\
  exists a x,
    args = Some a /\ a_channel_id a = Some x /\ txt = a_text a /\
    ts = a_thread_ts a /\ resolveChannelId c x = Ret ch /\
    targetBlocked c x = false.
Proof.
  intros H Hl.
  destruct (callTool_step cfg c tool args w o w' H)
    as (o1 & _ & [[S _]|(k & Hs & Hk & _)]).
  - subst w'. now apply app_one_neq in Hl.
  - pose proof (new_call_unique w w' _ _ Hl Hk) as E. subst k.
    destruct Hs as (a & Ea & Ht & Etx & Ets & Hd & Ho & x & Ex & Er).
    split; [exact Ht|]. split; [|split].
    + unfold postingDisabled in Hd. apply andb_false_iff in Hd as [Hd|Hd].
      * left. now apply negb_false_iff in Hd.
      * right. destruct (ALLOWED_CHANNELS cfg); [discriminate|discriminate Hd].
    + now apply offAllowList_false.
    + exists a, x. repeat split; auto.
      destruct (targetBlocked c x) eqn:Eb; [|reflexivity].
      rewrite (resolve_blocked c x Eb) in Er. discriminate Er.
Qed.

Lemma post_only_when_enabled_and_allowed_witness :
  let cfg := configOfEnv (Some "C100") in
  let w := mkWorld [postedReply "1.5" "C100"] [] in
  "conversations_add_message" = "conversations_add_message" /\
  (ADD_MESSAGE_ENABLED cfg = true \/ ALLOWED_CHANNELS cfg <> None) /\
  (forall allowed, ALLOWED_CHANNELS cfg = Some allowed -> In "C100" allowed) /\
  exists a x,
    Some (targetArgs "C100") = Some a /\ a_channel_id a = Some x /\
    Some "hello" = a_text a /\ None = a_thread_ts a /\
    resolveChannelId demoCache x = Ret "C100" /\
    targetBlocked demoCache x = false.
Proof.
  intros cfg w.
  exact (post_only_when_enabled_and_allowed cfg demoCache
           "conversations_add_message" (Some (targetArgs "C100")) w
           _ _ "C100" (Some "hello") None (surjective_pairing _) eq_refl).
Defined.

(** ** Resolved targets *)

Lemma resolved_unflagged (c : Cache) (x ch : string) :
  channelTablesConsistent c ->
  resolveChannelId c x = Ret ch ->
  lookup_flagged (map_get ch (channelsById c)) = false.
Proof.
  intros [_ Hn] Hr.
  destruct (targetBlocked c x) eqn:Eb;
    [rewrite (resolve_blocked c x Eb) in Hr; discriminate Hr|].
  rewrite (resolve_not_blocked c x Eb) in Hr.
  unfold targetBlocked, cachedTarget in Eb.
  apply orb_false_iff in Eb as [_ Eb].
  destruct (Js.startsWith x "#").
  - destruct (map_get x (channelsByName c)) as [v|] eqn:Ev; [|discriminate Hr].
    inversion Hr; subst ch. now rewrite (Hn x v Ev).
  - inversion Hr; subst ch. exact Eb.
Qed.

(** X12. In a cache whose tables are consistent, a call that names a channel
    (history, replies, post) names the id some requested target resolved to,
    and the by-id table holds no flagged channel under that id. *)
Theorem channel_calls_aim_at_unflagged_ids (cfg : Config) (c : Cache)
    (tool : string) (args : option ToolArgs) (w : World)
    (o : Outcome ToolResult) (w' : World) (k : Call) (ch : string) :
  channelTablesConsistent c ->
  callTool cfg c tool args w = (o, w') ->
  log w' = (log w ++ [k])%list ->
  call_channel k = Some ch ->
  lookup_flagged (map_get ch (channelsById c)) = false /\
  exists a x, args = Some a /\ a_channel_id a = Some x /\
              resolveChannelId c x = Ret ch.
Proof.
  intros Hc H Hl Hch.
  destruct (callTool_step cfg c tool args w o w' H)
    as (o1 & _ & [[S _]|(k' & Hs & Hk & _)]).
  - subst w'. now apply app_one_neq in Hl.
  - pose proof (new_call_unique w w' _ _ Hl Hk) as E. subst k'.
    destruct Hs as (a & Ea & Hs).
    assert (E : exists x, a_channel_id a = Some x /\ resolveChannelId c x = Ret ch).
    { destruct k; simpl in Hch; try discriminate Hch;
        inversion Hch; subst; intuition. }
    destruct E as (x & Ex & Er). split.
    + exact (resolved_unflagged c x ch Hc Er).
    + eauto.
Qed.

Lemma built_channel_tables_consistent (sc : list HttpResult) (c : Cache)
    (w : World) :
  buildCache sc = (Ret c, w) ->
  idsMatchNames ch_id ch_name (channelRecords sc) ->
  channelTablesConsistent c.
Proof.
  intros Hb Hm. apply buildCache_tables in Hb as (Ei & En & _).
  unfold channelTablesConsistent. rewrite Ei, En. split; intros k v H.
  - apply (cross_lookup ch_id (fun r => "#" ++ ch_name r)) in H
      as (r & _ & -> & _ & Hg); [exact Hg|].
    intros r1 r2 H1 H2. rewrite hash_name_inj. now apply Hm.
  - apply (cross_lookup (fun r => "#" ++ ch_name r) ch_id) in H
      as (r & _ & -> & _ & Hg); [exact Hg|].
    intros r1 r2 H1 H2. rewrite hash_name_inj. symmetry. now apply Hm.
Qed.

Lemma channel_calls_aim_at_unflagged_ids_witness :
  let w := mkWorld [messagesPage []] [] in
  let cfg := mkConfig false None in
  lookup_flagged (map_get "C100" (channelsById demoCache)) = false /\
  exists a x, Some (targetArgs "#general") = Some a /\ a_channel_id a = Some x /\
              resolveChannelId demoCache x = Ret "C100".
Proof.
  intros w cfg.
  exact (channel_calls_aim_at_unflagged_ids cfg demoCache
           "conversations_history" (Some (targetArgs "#general")) w _ _
           (ConversationsHistory "C100" 50 None) "C100"
           (built_channel_tables_consistent demoScript demoCache _ eq_refl
              demo_channel_records_match)
           (surjective_pairing _) eq_refl eq_refl).
Defined.

(** ** Failures at the dispatch boundary *)

(** X13. No tool request ends in a thrown error: whatever a handler throws
    is returned as an error result. A request waits for a response only
    after sending its call to an exhausted script. When the call was sent
    and the response is a transport failure or a reply that is not ok, the
    result is the error result carrying that failure's message. *)
Theorem tool_failures_become_error_results (cfg : Config) (c : Cache)
    (tool : string) (args : option ToolArgs) (w : World)
    (o : Outcome ToolResult) (w' : World) :
  callTool cfg c tool args w = (o, w') ->
  (forall msg, o <> Throw msg) /\
  (o = Starved ->
   script w = [] /\ exists k, log w' = (log w ++ [k])%list) /\
  (forall k r rest msg,
      log w' = (log w ++ [k])%list ->
      script w = r :: rest ->
      slackApiReply r = Throw msg ->
      o = Ret (mkToolResult ("Error: " ++ msg) true) /\ script w' = rest).
Proof.
  intros H. destruct (callTool_step cfg c tool args w o w' H) as (o1 & -> & S).
  split; [|split].
  - intros msg. destruct o1; discriminate.
  - intros Es. destruct o1; try discriminate Es.
    destruct S as [[_ S]|(k & _ & Hl & _ & Ha)]; [congruence|].
    split; [|eauto]. unfold answered in Ha.
    destruct (script w) as [|r rest]; [reflexivity|].
    destruct (slackApiReply r); [destruct Ha; discriminate|discriminate|contradiction].
  - intros k r rest msg Hl Hs Hr.
    destruct S as [[-> _]|(k' & _ & _ & Ht & Ha)];
      [now apply app_one_neq in Hl|].
    unfold answered in Ha. rewrite Hs in Ha, Ht. rewrite Hr in Ha. subst o1.
    split; [reflexivity | exact Ht].
Qed.

Lemma tool_failures_become_error_results_witness :
  let failing :=
    HttpReply (mkApiData false (Some "channel_not_found") None None None None
                         None false None None None) in
  let w := mkWorld [failing] [] in
  callTool (mkConfig false None) demoCache "conversations_history"
           (Some (targetArgs "C999")) w
  = (Ret (mkToolResult "Error: Slack API error: channel_not_found" true),
     mkWorld [] [ConversationsHistory "C999" 50 None]).
Proof.
  intros failing w.
  destruct (tool_failures_become_error_results (mkConfig false None) demoCache
              "conversations_history" (Some (targetArgs "C999")) w _ _
              (surjective_pairing _)) as (_ & _ & H).
  destruct (H (ConversationsHistory "C999" 50 None) failing []
              "Slack API error: channel_not_found" eq_refl eq_refl eq_refl)
    as [Ho Hs].
  rewrite (surjective_pairing (callTool _ _ _ _ _)). rewrite Ho.
  reflexivity.
Defined.

(** ** The two security functions *)

(** X14. On an identifier that is not a [#]name, [isBlockedChannel] (given
    the identifier both as id and as name) and [resolveChannelId] agree: the
    first answers true exactly when the second throws, and false exactly
    when the second returns the identifier unchanged. *)
Theorem isBlockedChannel_agrees_on_raw_ids (c : Cache) (x : string) :
  Js.startsWith x "#" = false ->
  (isBlockedChannel c x (Some x) = true <->
   exists msg, resolveChannelId c x = Throw msg) /\
  (isBlockedChannel c x (Some x) = false <-> resolveChannelId c x = Ret x).
Proof.
  intros Hh. rewrite <- (targetBlocked_raw c x Hh).
  destruct (targetBlocked c x) eqn:Eb.
  - rewrite (resolve_blocked c x Eb). split; split; eauto; discriminate.
  - rewrite (resolve_not_blocked c x Eb), Hh. split; split; auto.
    + discriminate.
    + intros [msg H]. discriminate H.
Qed.

Lemma isBlockedChannel_agrees_on_raw_ids_witness :
  (isBlockedChannel demoCache "G200" (Some "G200") = true <->
   exists msg, resolveChannelId demoCache "G200" = Throw msg) /\
  (isBlockedChannel demoCache "G200" (Some "G200") = false <->
   resolveChannelId demoCache "G200" = Ret "G200").
Proof.
  apply (isBlockedChannel_agrees_on_raw_ids demoCache "G200"). reflexivity.
Defined.

(** ** The posting configuration *)

Lemma split_nonempty (sep : ascii) (s : string) : Js.split sep s <> [].
Proof.
  destruct s as [|a r]; simpl; [discriminate|].
  destruct (Ascii.eqb a sep); [discriminate|].
  destruct (Js.split sep r); discriminate.
Qed.

Lemma join_split (sep : ascii) (s : string) :
  Js.join (String sep EmptyString) (Js.split sep s) = s.
Proof.
  unfold Js.join. induction s as [|a r IH]; [reflexivity|]. simpl.
  pose proof (split_nonempty sep r) as Hn.
  destruct (Js.split sep r) as [|h t] eqn:Es; [congruence|].
  destruct (Ascii.eqb a sep) eqn:E.
  - apply Ascii.eqb_eq in E. subst a. rewrite <- IH. reflexivity.
  - rewrite <- IH. now destruct t.
Qed.

Lemma split_pieces_no_sep (sep : ascii) (s : string) :
  Forall (fun p => Js.split sep p = [p]) (Js.split sep s).
Proof.
  induction s as [|a r IH]; simpl; [now constructor|].
  destruct (Ascii.eqb a sep) eqn:E; [now constructor|].
  destruct (Js.split sep r) as [|h t] eqn:Es.
  - constructor; [|constructor]. simpl. now rewrite E.
  - inversion IH as [|? ? Hh Ht]; subst. constructor; [|exact Ht].
    simpl. now rewrite E, Hh.
Qed.

(** X15. How SLACK_MCP_ADD_MESSAGE_TOOL is read: posting is enabled exactly
    when the value is [true], [1] or starts with [C]; the flag and the
    allow-list are never both set; an allow-list is the value cut at its
    commas, pieces kept as they are (joining them with commas gives the
    value back, and no piece holds a comma). *)
Theorem env_enables_posting (env : option string) :
  let cfg := configOfEnv env in
  (postingDisabled cfg = false <->
   exists v, env = Some v /\
             (v = "true" \/ v = "1" \/ Js.startsWith v "C" = true)) /\
  (ADD_MESSAGE_ENABLED cfg = true -> ALLOWED_CHANNELS cfg = None) /\
  (forall allowed,
      ALLOWED_CHANNELS cfg = Some allowed ->
      exists v, env = Some v /\ Js.startsWith v "C" = true /\
                Js.join "," allowed = v /\
                Forall (fun p => Js.split Js.comma p = [p]) allowed).
Proof.
  intros cfg. subst cfg. unfold postingDisabled, configOfEnv.
  cbn [ADD_MESSAGE_ENABLED ALLOWED_CHANNELS].
  destruct env as [v|].
  - destruct (Js.startsWith v "C") eqn:Ec.
    + assert (Hf : String.eqb v "true" || String.eqb v "1" = false).
      { pose proof Ec as Ec'. apply startsWith_char in Ec' as [r ->].
        reflexivity. }
      rewrite Hf. split; [|split].
      * split; [eauto|reflexivity].
      * discriminate.
      * intros allowed H. inversion H; subst. exists v.
        split; [reflexivity|]. split; [exact Ec|].
        split; [apply join_split|apply split_pieces_no_sep].
    + split; [|split].
      * rewrite andb_true_r, negb_false_iff, orb_true_iff, !String.eqb_eq.
        split.
        -- intros H. exists v. tauto.
        -- intros (v' & E & H). inversion E; subst v'.
           destruct H as [H|[H|H]]; auto. congruence.
      * reflexivity.
      * discriminate.
  - split; [|split]; try discriminate.
    split; [discriminate | intros (v & E & _); discriminate E].
Qed.

(** ** The cursor column *)

Lemma updateLast_snoc {A} (f : A -> A) (l : list A) (x : A) :
  updateLast f (l ++ [x]) = (l ++ [f x])%list.
Proof.
  induction l as [|y l IH]; [reflexivity|].
  simpl. rewrite IH. now destruct l.
Qed.

(** ** The search query *)

Lemma replaceFirst_hash (n : string) : Js.replaceFirst Js.hash "" ("#" ++ n) = n.
Proof. reflexivity. Qed.

(** X17. The channel clause of a search over a built cache: when the filter
    resolves to an id the cache holds, the query gets [ in:] followed by the
    channel name as the remote delivered it (without the [#]); when the
    filter resolves to an id the cache does not hold, the query is left as
    it is, so the search is not restricted to any channel. *)
Theorem search_channel_clause (sc : list HttpResult) (c : Cache) (w : World)
    (a : ToolArgs) (x y : string) (query : option string) :
  buildCache sc = (Ret c, w) ->
  a_channel a = Some x ->
  x <> "" ->
  resolveChannelId c x = Ret y ->
  match find_last (fun r => String.eqb (ch_id r) y) (channelRecords sc) with
  | Some r =>
      searchChannelClause c a query
      = Ret (Some (Js.show query ++ " in:" ++ ch_name r))
  | None => searchChannelClause c a query = Ret query
  end.
Proof.
  intros Hb Ha Hx Hr. unfold searchChannelClause.
  rewrite Ha. apply truthy_true in Hx. rewrite Hx, Hr.
  destruct (buildCache_get sc c w y Hb) as (H1 & _). rewrite H1.
  destruct (find_last _ (channelRecords sc)) as [r|]; reflexivity.
Qed.

Lemma search_channel_clause_witness :
  searchChannelClause demoCache (searchArgs "deploy" "#general") (Some "deploy")
  = Ret (Some "deploy in:general") /\
  searchChannelClause demoCache (searchArgs "deploy" "C999") (Some "deploy")
  = Ret (Some "deploy").
Proof.
  split.
  - exact (search_channel_clause demoScript demoCache _
             (searchArgs "deploy" "#general") "#general" "C100" (Some "deploy")
             eq_refl eq_refl ltac:(discriminate) eq_refl).
  - exact (search_channel_clause demoScript demoCache _
             (searchArgs "deploy" "C999") "C999" "C999" (Some "deploy")
             eq_refl eq_refl ltac:(discriminate) eq_refl).
Defined.

(** X18. Naming the author of a search by the id of a cached user or by
    [@] followed by that user's handle gives the same query. *)
Theorem search_user_by_id_or_handle (c : Cache) (a : ToolArgs)
    (uid : string) (u : User) (query : option string) :
  map_get uid (usersById c) = Some u ->
  uid <> "" ->
  Js.startsWith uid "@" = false ->
  user_name u <> "" ->
  searchUserClause c (withFromUser a (Some uid)) query
  = searchUserClause c (withFromUser a (Some ("@" ++ user_name u))) query /\
  searchUserClause c (withFromUser a (Some uid)) query
  = Some (Js.show query ++ " from:" ++ user_name u).
Proof.
  intros Hg Hu Hat Hn. unfold searchUserClause, withFromUser.
  cbn [a_from_user].
  assert (E1 : Js.startsWith ("@" ++ user_name u) "@" = true)
    by (apply startsWith_char; now exists (user_name u)).
  assert (E2 : Js.truthy ("@" ++ user_name u) = true) by reflexivity.
  apply truthy_true in Hu. rewrite Hu, Hat, Hg, E1, E2.
  unfold Js.strOr. cbn [option_map Js.substring1 append].
  apply truthy_true in Hn. rewrite Hn. auto.
Qed.

Lemma search_user_by_id_or_handle_witness :
  searchUserClause demoCache (withFromUser (searchArgs "q" "") (Some "U1"))
                   (Some "q")
  = searchUserClause demoCache (withFromUser (searchArgs "q" "") (Some "@alice"))
                     (Some "q") /\
  searchUserClause demoCache (withFromUser (searchArgs "q" "") (Some "U1"))
                   (Some "q")
  = Some "q from:alice".
Proof.
  apply (search_user_by_id_or_handle demoCache (searchArgs "q" "") "U1"
           (mkUser "U1" "alice" "Alice A") (Some "q"));
    try reflexivity; discriminate.
Defined.

(** ** Resource addresses *)

Lemma eqb_length (s t : string) :
  String.eqb s t = true -> String.length s = String.length t.
Proof. intros H. apply String.eqb_eq in H. now subst. Qed.

Lemma substring_all (s : string) : String.substring 0 (String.length s) s = s.
Proof. induction s as [|a r IH]; simpl; [reflexivity | now rewrite IH]. Qed.

Lemma endsWith_isSuffix (s t : string) : Js.endsWith s t = isSuffix s t.
Proof.
  unfold Js.endsWith. induction s as [|a r IH].
  - now destruct t.
  - cbn [isSuffix String.length].
    destruct (Nat.leb (String.length t) (S (String.length r))) eqn:L.
    + apply Nat.leb_le in L.
      destruct (Nat.eq_dec (String.length t) (S (String.length r))) as [E|N].
      * rewrite E, Nat.sub_diag.
        change (S (String.length r)) with (String.length (String a r)).
        rewrite substring_all.
        replace (Nat.leb (String.length t) (String.length r)) with false in IH
          by (symmetry; apply Nat.leb_gt; lia).
        now rewrite <- IH, orb_false_r.
      * replace (S (String.length r) - String.length t)
          with (S (String.length r - String.length t)) by lia.
        cbn [String.substring].
        replace (Nat.leb (String.length t) (String.length r)) with true in IH
          by (symmetry; apply Nat.leb_le; lia).
        rewrite <- IH.
        destruct (String.eqb (String a r) t) eqn:Q; [|reflexivity].
        apply eqb_length in Q. simpl in Q. lia.
    + apply Nat.leb_gt in L.
      replace (Nat.leb (String.length t) (String.length r)) with false in IH
        by (symmetry; apply Nat.leb_gt; lia).
      rewrite <- IH, orb_false_r.
      destruct (String.eqb (String a r) t) eqn:Q; [|reflexivity].
      apply eqb_length in Q. simpl in Q. lia.
Qed.

Lemma isSuffix_app (p s : string) : isSuffix (p ++ s) s = true.
Proof.
  induction p as [|a p IH].
  - destruct s; cbn [append isSuffix]; now rewrite String.eqb_refl.
  - cbn [append isSuffix]. now rewrite IH, orb_true_r.
Qed.

Lemma users_not_channels (p : string) :
  isSuffix (p ++ "/users") "/channels" = false.
Proof.
  induction p as [|a p IH]; [reflexivity|].
  cbn [append isSuffix]. rewrite IH, orb_false_r.
  apply String.eqb_neq. intros H. inversion H as [[Ha Hp]]. clear H IH.
  repeat (destruct p as [|? p]; simpl in Hp; [discriminate Hp|];
          inversion Hp as [[Hc Hp']]; clear Hp Hc; rename Hp' into Hp).
Qed.

(** X19. Every resource the server lists can be read, for every workspace
    label: the channels address gives the channel table of the unflagged
    channels and the users address the user table; an address that ends in
    neither [/channels] nor [/users] is refused as unknown. *)
Theorem listed_resources_are_readable (c : Cache) :
  List.map (fun r => readResource c (res_uri r)) (listResources c)
  = [ Ret (channelsCsv (resourceChannels c));
      Ret (usersCsv (map_values (usersById c))) ] /\
  (forall uri,
      Js.endsWith uri "/channels" = false ->
      Js.endsWith uri "/users" = false ->
      readResource c uri = Throw ("Unknown resource: " ++ uri)).
Proof.
  split.
  - unfold listResources, readResource. cbn [List.map res_uri].
    rewrite !endsWith_isSuffix.
    assert (E1 : isSuffix ("slack://" ++ workspace c ++ "/channels") "/channels"
                 = true)
      by apply (isSuffix_app ("slack://" ++ workspace c) "/channels").
    assert (E2 : isSuffix ("slack://" ++ workspace c ++ "/users") "/channels"
                 = false)
      by apply (users_not_channels ("slack://" ++ workspace c)).
    assert (E3 : isSuffix ("slack://" ++ workspace c ++ "/users") "/users"
                 = true)
      by apply (isSuffix_app ("slack://" ++ workspace c) "/users").
    now rewrite E1, E2, E3.
  - intros uri H1 H2. unfold readResource. now rewrite H1, H2.
Qed.

(** ** Credentials *)

Lemma isSet_strOr (o : option string) :
  isSet o = true -> o = Some (Js.strOr o "") /\ Js.strOr o "" <> "".
Proof.
  destruct o as [s|]; simpl; [|discriminate]. intros H. rewrite H.
  split; [reflexivity | now apply truthy_true].
Qed.

(** X20. The server starts exactly when a complete credential is set: both
    browser tokens, or one of the two OAuth variables. It then never uses
    an empty bearer token. The browser pair wins over an OAuth token, and
    the cookie header is sent exactly with the browser pair, as [d=]
    followed by the xoxd token; otherwise SLACK_TOKEN wins over
    SLACK_MCP_XOXP_TOKEN. *)
Theorem credentials_are_complete (xoxc xoxd slack_token mcp_xoxp : option string) :
  (selectAuth xoxc xoxd slack_token mcp_xoxp = None <->
   isSet xoxc && isSet xoxd = false /\ isSet slack_token = false /\
   isSet mcp_xoxp = false) /\
  (forall a,
      selectAuth xoxc xoxd slack_token mcp_xoxp = Some a ->
      AUTH_TOKEN a <> "" /\
      (isSet xoxc && isSet xoxd = true ->
       xoxc = Some (AUTH_TOKEN a) /\
       exists d, xoxd = Some d /\
                 requestHeaders a
                 = [ ("Authorization", "Bearer " ++ AUTH_TOKEN a);
                     ("Content-Type", "application/json; charset=utf-8");
                     ("Cookie", "d=" ++ d) ]) /\
      (isSet xoxc && isSet xoxd = false ->
       requestHeaders a
       = [ ("Authorization", "Bearer " ++ AUTH_TOKEN a);
           ("Content-Type", "application/json; charset=utf-8") ] /\
       (isSet slack_token = true -> slack_token = Some (AUTH_TOKEN a)) /\
       (isSet slack_token = false -> mcp_xoxp = Some (AUTH_TOKEN a)))).
Proof.
  unfold selectAuth, XOXP_TOKEN. split.
  - destruct (isSet xoxc && isSet xoxd); [split; [discriminate|intros [H _]; discriminate H]|].
    destruct (isSet slack_token) eqn:Es.
    + rewrite Es. split; [discriminate|intros (_ & H & _); discriminate H].
    + destruct (isSet mcp_xoxp) eqn:Em; split; try discriminate; auto.
      intros (_ & _ & H). discriminate H.
  - intros a. destruct (isSet xoxc && isSet xoxd) eqn:Eb.
    + intros H. inversion H; subst a. clear H. cbn [AUTH_TOKEN].
      apply andb_true_iff in Eb as [Ec Ed].
      destruct (isSet_strOr xoxc Ec) as [Hc Hc'].
      destruct (isSet_strOr xoxd Ed) as [Hd Hd'].
      split; [exact Hc'|]. split; [|discriminate].
      intros _. split; [exact Hc|]. exists (Js.strOr xoxd "").
      split; [exact Hd|]. reflexivity.
    + destruct (isSet slack_token) eqn:Es.
      * rewrite Es. intros H. inversion H; subst a. clear H. cbn [AUTH_TOKEN].
        destruct (isSet_strOr slack_token Es) as [Hs Hs'].
        split; [exact Hs'|]. split; [discriminate|].
        intros _. split; [reflexivity|]. split; [auto|discriminate].
      * destruct (isSet mcp_xoxp) eqn:Em; [|discriminate].
        intros H. inversion H; subst a. clear H. cbn [AUTH_TOKEN].
        destruct (isSet_strOr mcp_xoxp Em) as [Hm Hm'].
        split; [exact Hm'|]. split; [discriminate|].
        intros _. split; [reflexivity|]. split; [discriminate|auto].
Qed.

(** ** Limits *)

(** X21. For a limit argument that is absent or an integer, a tool request
    never asks the remote for more than 100 items: the limit of a history
    or replies call and the count of a search call are the requested limit
    (50, respectively 20, when it is missing or 0) cut down to 100. *)
Theorem tool_limits_are_clamped (cfg : Config) (c : Cache) (tool : string)
    (args : option ToolArgs) (w : World) (o : Outcome ToolResult) (w' : World)
    (k : Call) (n : Z) :
  callTool cfg c tool args w = (o, w') ->
  log w' = (log w ++ [k])%list ->
  call_limit k = Some n ->
  (n <= 100)%Z /\
  exists a, args = Some a /\
    n = Z.min (Js.numOr (a_limit a)
                 (if String.eqb tool "conversations_search" then 20 else 50)) 100.
Proof.
  intros H Hl Hn.
  destruct (callTool_step cfg c tool args w o w' H)
    as (o1 & _ & [[S _]|(k' & Hs & Hk & _)]).
  - subst w'. now apply app_one_neq in Hl.
  - pose proof (new_call_unique w w' _ _ Hl Hk) as E. subst k'.
    destruct Hs as (a & Ea & Hs).
    destruct k; simpl in Hn; try discriminate Hn; try contradiction;
      inversion Hn; subst n.
    + destruct Hs as (-> & -> & _). split; [unfold pageLimit; lia|].
      exists a. split; [exact Ea | reflexivity].
    + destruct Hs as (-> & _ & -> & _). split; [unfold pageLimit; lia|].
      exists a. split; [exact Ea | reflexivity].
    + destruct Hs as (-> & -> & _). split; [lia|].
      exists a. split; [exact Ea | reflexivity].
Qed.

Lemma tool_limits_are_clamped_witness :
  let a := mkToolArgs None (Some 5000%Z) (Some "C100") None None None None None
                      None in
  let w := mkWorld [messagesPage []] [] in
  (100 <= 100)%Z /\
  exists a', Some a = Some a' /\
    100%Z = Z.min (Js.numOr (a_limit a')
                     (if String.eqb "conversations_history" "conversations_search"
                      then 20 else 50)) 100.
Proof.
  intros a w.
  exact (tool_limits_are_clamped (mkConfig false None) demoCache
           "conversations_history" (Some a) w _ _
           (ConversationsHistory "C100" 100 None) 100
           (surjective_pairing _) eq_refl eq_refl).
Defined.

(** ** Successful reads *)

Lemma history_resolved (c : Cache) (a : ToolArgs) (x y : string) (w : World) :
  a_channel_id a = Some x ->
  resolveChannelId c x = Ret y ->
  handleConversationsHistory c (Some a) w =
    (result <- slackApi (ConversationsHistory y (pageLimit a) (a_cursor a)) ;;
     ret (historyCsv (historyMessages c result))) w.
Proof.
  intros Ha Hr. unfold handleConversationsHistory, needArgs, lift.
  unfold bind at 1 2. unfold ret at 1. rewrite Ha. simpl. now rewrite Hr.
Qed.

(** X22. History of a target that resolves: the call goes to the resolved
    id, and a successful reply is rendered as the history table with one
    row per message of the reply, in the order of the reply, each with the
    timestamp and text of its message. *)
Theorem history_renders_every_message (cfg : Config) (c : Cache) (a : ToolArgs)
    (x y : string) (d : ApiData) (rest : list HttpResult) (lg : list Call) :
  a_channel_id a = Some x ->
  resolveChannelId c x = Ret y ->
  ok d = true ->
  callTool cfg c "conversations_history" (Some a) (mkWorld (HttpReply d :: rest) lg)
  = (Ret (mkToolResult (historyCsv (historyMessages c d)) false),
     mkWorld rest (lg ++ [ConversationsHistory y (pageLimit a) (a_cursor a)])) /\
  List.map h_ts (historyMessages c d) = List.map m_ts (listOr (messages d)) /\
  List.map h_text (historyMessages c d) = List.map m_text (listOr (messages d)) /\
  List.length (historyMessages c d) = List.length (listOr (messages d)).
Proof.
  intros Ha Hr Hok.
  split; [|split; [|split]].
  - rewrite callTool_caught. unfold toolHandler. simpl.
    rewrite (history_resolved c a x y _ Ha Hr).
    unfold bind, slackApi, ret. simpl. now rewrite Hok.
  - unfold historyMessages.
    match goal with |- context [if ?b then _ else _] => destruct b end;
      [rewrite updateLast_map by reflexivity|]; now rewrite map_map.
  - unfold historyMessages.
    match goal with |- context [if ?b then _ else _] => destruct b end;
      [rewrite updateLast_map by reflexivity|]; now rewrite map_map.
  - rewrite <- (length_map h_ts). unfold historyMessages.
    match goal with |- context [if ?b then _ else _] => destruct b end;
      [rewrite updateLast_map by reflexivity|]; now rewrite !length_map.
Qed.

Lemma history_renders_every_message_witness :
  let d := mkApiData true None None None None None
             (Some [mkRawMessage "1.0" (Some "U1") (Some "a") None None;
                    mkRawMessage "2.0" (Some "U404") (Some "b") None None])
             false None None None in
  callTool (mkConfig false None) demoCache "conversations_history"
           (Some (targetArgs "#general")) (mkWorld [HttpReply d] [])
  = (Ret (mkToolResult
            (historyCsv [mkHistoryMsg "1.0" "Alice A" (Some "a") None None "";
                         mkHistoryMsg "2.0" "U404" (Some "b") None None ""])
            false),
     mkWorld [] [ConversationsHistory "C100" 50 None]).
Proof.
  intros d.
  exact (proj1 (history_renders_every_message (mkConfig false None) demoCache
                  (targetArgs "#general") "#general" "C100" d [] []
                  eq_refl eq_refl eq_refl)).
Defined.

(** ** Resolving twice *)

(** X23. In a cache whose tables are consistent, the id a target resolves
    to resolves to itself, unless the id itself starts with [@], [D] or
    [#]: resolving a name and then its id changes nothing. *)
Theorem resolved_id_resolves_to_itself (c : Cache) (x y : string) :
  channelTablesConsistent c ->
  resolveChannelId c x = Ret y ->
  Js.startsWith y "@" = false ->
  Js.startsWith y "D" = false ->
  Js.startsWith y "#" = false ->
  resolveChannelId c y = Ret y.
Proof.
  intros Hc Hr Hat Hd Hh.
  pose proof (resolved_unflagged c x y Hc Hr) as Hf.
  rewrite resolve_not_blocked; [now rewrite Hh|].
  unfold targetBlocked, cachedTarget. now rewrite Hat, Hd, Hh, Hf.
Qed.

Lemma resolved_id_resolves_to_itself_witness :
  resolveChannelId demoCache "#general" = Ret "C100" /\
  resolveChannelId demoCache "C100" = Ret "C100".
Proof.
  split; [reflexivity|].
  exact (resolved_id_resolves_to_itself demoCache "#general" "C100"
           (built_channel_tables_consistent demoScript demoCache _ eq_refl
              demo_channel_records_match)
           eq_refl eq_refl eq_refl eq_refl).
Defined.

(** ** Tables *)

Lemma append_assoc3 (a b c : string) : (a ++ b) ++ c = a ++ b ++ c.
Proof. induction a as [|x a IH]; simpl; [reflexivity | now rewrite IH]. Qed.

Lemma append_empty_r (a : string) : a ++ "" = a.
Proof. induction a as [|x a IH]; simpl; [reflexivity | now rewrite IH]. Qed.

Lemma join_lines (rows : list string) :
  forall header, Js.join nl (header :: rows) = header ++ linesAfter rows.
Proof.
  unfold Js.join. induction rows as [|r rows IH]; intros header.
  - simpl. now rewrite append_empty_r.
  - rewrite concat_cons2, IH. simpl. reflexivity.
Qed.

(** X24. Every table is its header line followed by one line per row, each
    row behind a line feed and in the order of the records: an empty result
    is the header alone, and the text never ends with a line feed of its
    own. *)
Theorem tables_are_header_and_rows :
  (forall chans,
      channelsCsv chans
      = "id,name,topic,purpose,members" ++ linesAfter (List.map channelRow chans)) /\
  (forall rows,
      historyCsv rows
      = "ts,user,text,thread_ts,reactions,cursor"
        ++ linesAfter (List.map historyRow rows)) /\
  (forall rows,
      repliesCsv rows = "ts,user,text,cursor" ++ linesAfter (List.map replyRow rows)) /\
  (forall rows,
      searchCsv rows = "ts,channel,user,text" ++ linesAfter (List.map matchRow rows)) /\
  (forall users,
      usersCsv users = "id,name,real_name" ++ linesAfter (List.map userRow users)) /\
  channelsCsv [] = "id,name,topic,purpose,members".
Proof. repeat split; intros; apply join_lines. Qed.

(** * Rows read back *)




















(** * The author column *)

Lemma historyMessages_column {B} (g : HistoryMsg -> B) (c : Cache)
    (result : ApiData) :
  (forall m cur,
      g (mkHistoryMsg (h_ts m) (h_user m) (h_text m) (h_thread_ts m)
                      (h_reactions m) cur) = g m) ->
  List.map g (historyMessages c result)
  = List.map (fun m => g (historyMsg c m)) (listOr (messages result)).
Proof.
  intros H. unfold historyMessages.
  match goal with |- context [if ?b then _ else _] => destruct b end;
    [rewrite updateLast_map by (intros; apply H)|]; now rewrite map_map.
Qed.

Lemma replyMessages_column {B} (g : ReplyMsg -> B) (c : Cache)
    (result : ApiData) :
  (forall m cur, g (mkReplyMsg (p_ts m) (p_user m) (p_text m) cur) = g m) ->
  List.map g (replyMessages c result)
  = List.map (fun m => g (replyMsg c m)) (listOr (messages result)).
Proof.
  intros H. unfold replyMessages.
  match goal with |- context [if ?b then _ else _] => destruct b end;
    [rewrite updateLast_map by (intros; apply H)|]; now rewrite map_map.
Qed.

Lemma rows_show_authors {A B} (row ts user : B -> string)
    (mts muser : A -> string) :
  (forall b, exists tail,
        row b = ts b ++ "," ++ dq ++ user b ++ dq ++ "," ++ tail) ->
  forall l1 l2,
    List.map ts l2 = List.map mts l1 ->
    List.map user l2 = List.map muser l1 ->
    Forall2 (fun m r => exists tail,
                 r = mts m ++ "," ++ dq ++ muser m ++ dq ++ "," ++ tail)
            l1 (List.map row l2).
Proof.
  intros Hrow. induction l1 as [|m l1 IH]; intros [|b l2] Ht Hu;
    try discriminate; simpl; [constructor|].
  inversion Ht as [[Ht1 Ht2]]. inversion Hu as [[Hu1 Hu2]].
  constructor; [|now apply IH].
  destruct (Hrow b) as [tail E]. exists tail. now rewrite E, Ht1, Hu1.
Qed.

Lemma historyRow_shape (m : HistoryMsg) :
  exists tail,
    historyRow m = h_ts m ++ "," ++ dq ++ h_user m ++ dq ++ "," ++ tail.
Proof.
  unfold historyRow, quoted. eexists. rewrite !append_assoc3. reflexivity.
Qed.

Lemma replyRow_shape (m : ReplyMsg) :
  exists tail,
    replyRow m = p_ts m ++ "," ++ dq ++ p_user m ++ dq ++ "," ++ tail.
Proof.
  unfold replyRow, quoted. eexists. rewrite !append_assoc3. reflexivity.
Qed.

Lemma replies_resolved (c : Cache) (a : ToolArgs) (x y : string) (w : World) :
  a_channel_id a = Some x ->
  resolveChannelId c x = Ret y ->
  handleConversationsReplies c (Some a) w =
    (result <- slackApi (ConversationsReplies y (a_thread_ts a) (pageLimit a)
                           (a_cursor a)) ;;
     ret (repliesCsv (replyMessages c result))) w.
Proof.
  intros Ha Hr. unfold handleConversationsReplies, needArgs, lift.
  unfold bind at 1 2. unfold ret at 1. rewrite Ha. simpl. now rewrite Hr.
Qed.

Lemma history_answered (cfg : Config) (c : Cache) (a : ToolArgs) (x y : string)
    (d : ApiData) (rest : list HttpResult) (lg : list Call) :
  a_channel_id a = Some x ->
  resolveChannelId c x = Ret y ->
  ok d = true ->
  callTool cfg c "conversations_history" (Some a) (mkWorld (HttpReply d :: rest) lg)
  = (Ret (mkToolResult (historyCsv (historyMessages c d)) false),
     mkWorld rest (lg ++ [ConversationsHistory y (pageLimit a) (a_cursor a)])).
Proof.
  intros Ha Hr Hok. rewrite callTool_caught. unfold toolHandler. simpl.
  rewrite (history_resolved c a x y _ Ha Hr).
  unfold bind, slackApi, ret. simpl. now rewrite Hok.
Qed.

Lemma replies_answered (cfg : Config) (c : Cache) (a : ToolArgs) (x y : string)
    (d : ApiData) (rest : list HttpResult) (lg : list Call) :
  a_channel_id a = Some x ->
  resolveChannelId c x = Ret y ->
  ok d = true ->
  callTool cfg c "conversations_replies" (Some a) (mkWorld (HttpReply d :: rest) lg)
  = (Ret (mkToolResult (repliesCsv (replyMessages c d)) false),
     mkWorld rest (lg ++ [ConversationsReplies y (a_thread_ts a) (pageLimit a)
                            (a_cursor a)])).
Proof.
  intros Ha Hr Hok. rewrite callTool_caught. unfold toolHandler. simpl.
  rewrite (replies_resolved c a x y _ Ha Hr).
  unfold bind, slackApi, ret. simpl. now rewrite Hok.
Qed.

(** C9. [getUserName] is the real name, else the handle, else the id it was
    given: an id absent from the user cache is returned as it is (the empty
    id of a message without author included), and the result is never empty
    for a non-empty id. History and replies put exactly this value in the
    user column: for a target that resolves and a successful reply, the
    result of the tool is the table whose row for each message of the reply
    is the timestamp, a comma, and between double quotes the name
    [getUserName] gives for the author of that message. *)
Theorem author_falls_back_to_id (c : Cache) :
  (forall uid, map_get uid (usersById c) = None -> getUserName c uid = uid) /\
  (forall uid u,
      map_get uid (usersById c) = Some u ->
      getUserName c uid
      = Js.strOr (Some (real_name u)) (Js.strOr (Some (user_name u)) uid)) /\
  (forall uid, uid <> "" -> getUserName c uid <> "") /\
  (forall result,
      List.map h_user (historyMessages c result)
      = List.map (fun m => getUserName c (Js.strOr (m_user m) ""))
                 (listOr (messages result)) /\
      List.map p_user (replyMessages c result)
      = List.map (fun m => getUserName c (Js.strOr (m_user m) ""))
                 (listOr (messages result))) /\
  (forall m,
      map_get (Js.strOr (m_user m) "") (usersById c) = None ->
      h_user (historyMsg c m) = Js.strOr (m_user m) "" /\
      p_user (replyMsg c m) = Js.strOr (m_user m) "") /\
  (forall cfg a x y d rest lg,
      a_channel_id a = Some x ->
      resolveChannelId c x = Ret y ->
      ok d = true ->
      let shows m row :=
        exists tail,
          row = m_ts m ++ "," ++ dq ++ getUserName c (Js.strOr (m_user m) "")
                ++ dq ++ "," ++ tail in
      (exists rows,
          callTool cfg c "conversations_history" (Some a)
                   (mkWorld (HttpReply d :: rest) lg)
          = (Ret (mkToolResult
                    ("ts,user,text,thread_ts,reactions,cursor" ++ linesAfter rows)
                    false),
             mkWorld rest
                     (lg ++ [ConversationsHistory y (pageLimit a) (a_cursor a)])) /\
          Forall2 shows (listOr (messages d)) rows) /\
      (exists rows,
          callTool cfg c "conversations_replies" (Some a)
                   (mkWorld (HttpReply d :: rest) lg)
          = (Ret (mkToolResult ("ts,user,text,cursor" ++ linesAfter rows) false),
             mkWorld rest
                     (lg ++ [ConversationsReplies y (a_thread_ts a) (pageLimit a)
                               (a_cursor a)])) /\
          Forall2 shows (listOr (messages d)) rows)).
Proof.
  split; [|split; [|split; [|split; [|split]]]].
  - intros uid H. unfold getUserName. now rewrite H.
  - intros uid u H. unfold getUserName. rewrite H. simpl.
    now destruct (Js.truthy (real_name u)), (Js.truthy (user_name u)).
  - intros uid Hne. unfold getUserName.
    destruct (map_get uid (usersById c)) as [u|]; [|exact Hne].
    destruct (Js.truthy (real_name u)) eqn:E1; [now apply truthy_true|].
    destruct (Js.truthy (user_name u)) eqn:E2; [now apply truthy_true|].
    exact Hne.
  - intros result. split.
    + now apply (historyMessages_column h_user).
    + now apply (replyMessages_column p_user).
  - intros m H. simpl. unfold getUserName. now rewrite H.
  - intros cfg a x y d rest lg Ha Hr Hok shows. split.
    + exists (List.map historyRow (historyMessages c d)). split.
      * rewrite (history_answered cfg c a x y d rest lg Ha Hr Hok).
        unfold historyCsv. now rewrite join_lines.
      * apply (rows_show_authors historyRow h_ts h_user).
        -- exact historyRow_shape.
        -- now apply (historyMessages_column h_ts).
        -- now apply (historyMessages_column h_user).
    + exists (List.map replyRow (replyMessages c d)). split.
      * rewrite (replies_answered cfg c a x y d rest lg Ha Hr Hok).
        unfold repliesCsv. now rewrite join_lines.
      * apply (rows_show_authors replyRow p_ts p_user).
        -- exact replyRow_shape.
        -- now apply (replyMessages_column p_ts).
        -- now apply (replyMessages_column p_user).
Qed.

Lemma author_falls_back_to_id_witness :
  getUserName demoCache "U404" = "U404" /\
  getUserName demoCache "U1" = "Alice A" /\
  getUserName demoCache "" = "" /\
  getUserName demoCache "U404" <> "" /\
  let d := mkApiData true None None None None None
             (Some [mkRawMessage "1.0" (Some "U404") (Some "a") None None;
                    mkRawMessage "2.0" None (Some "b") None None])
             false None None None in
  exists rows,
    callTool (mkConfig false None) demoCache "conversations_replies"
             (Some (targetArgs "C100")) (mkWorld [HttpReply d] [])
    = (Ret (mkToolResult ("ts,user,text,cursor" ++ linesAfter rows) false),
       mkWorld [] [ConversationsReplies "C100" None 50 None]) /\
    Forall2 (fun m row =>
               exists tail,
                 row = m_ts m ++ "," ++ dq
                       ++ getUserName demoCache (Js.strOr (m_user m) "")
                       ++ dq ++ "," ++ tail)
            [mkRawMessage "1.0" (Some "U404") (Some "a") None None;
             mkRawMessage "2.0" None (Some "b") None None]
            rows.
Proof.
  destruct (author_falls_back_to_id demoCache) as (H1 & H2 & H3 & _ & _ & H6).
  split; [apply H1; reflexivity|].
  split; [apply (H2 "U1" (mkUser "U1" "alice" "Alice A")); reflexivity|].
  split; [apply H1; reflexivity|].
  split; [apply H3; discriminate|].
  intros d.
  exact (proj2 (H6 (mkConfig false None) (targetArgs "C100") "C100" "C100" d
                   [] [] eq_refl eq_refl eq_refl)).
Defined.

(** * The cursor column of the tables *)

Lemma linesAfter_snoc (rows : list string) (r cur : string) :
  linesAfter (rows ++ [r ++ cur]) = linesAfter (rows ++ [r]) ++ cur.
Proof.
  unfold linesAfter. induction rows as [|x rows IH].
  - cbn [fold_right app]. now rewrite ?append_empty_r, ?append_assoc3.
  - cbn [fold_right app]. rewrite IH. now rewrite ?append_assoc3.
Qed.

Lemma historyMessages_snoc (c : Cache) (d : ApiData) (init : list RawMessage)
    (m : RawMessage) :
  listOr (messages d) = (init ++ [m])%list ->
  List.map historyRow (historyMessages c d)
  = (List.map historyRow (List.map (historyMsg c) init)
     ++ [(historyRow (historyMsg c m)
          ++ (if has_more d then Js.strOr (next_cursor d) "" else ""))%string])%list.
Proof.
  intros E. unfold historyMessages. rewrite E, map_app. cbn [List.map].
  assert (L : Nat.ltb 0 (List.length (List.map (historyMsg c) init ++ [historyMsg c m])) = true)
    by (apply Nat.ltb_lt; rewrite length_app; simpl; lia).
  rewrite L. cbn [andb]. destruct (has_more d).
  - rewrite updateLast_snoc, map_app. cbn [List.map]. f_equal. f_equal.
    unfold historyRow, historyMsg.
    cbn [h_ts h_user h_text h_thread_ts h_reactions h_cursor].
    now rewrite ?append_assoc3.
  - rewrite map_app. cbn [List.map]. now rewrite append_empty_r.
Qed.

Lemma replyMessages_snoc (c : Cache) (d : ApiData) (init : list RawMessage)
    (m : RawMessage) :
  listOr (messages d) = (init ++ [m])%list ->
  List.map replyRow (replyMessages c d)
  = (List.map replyRow (List.map (replyMsg c) init)
     ++ [(replyRow (replyMsg c m)
          ++ (if has_more d then Js.strOr (next_cursor d) "" else ""))%string])%list.
Proof.
  intros E. unfold replyMessages. rewrite E, map_app. cbn [List.map].
  assert (L : Nat.ltb 0 (List.length (List.map (replyMsg c) init ++ [replyMsg c m])) = true)
    by (apply Nat.ltb_lt; rewrite length_app; simpl; lia).
  rewrite L. cbn [andb]. destruct (has_more d).
  - rewrite updateLast_snoc, map_app. cbn [List.map]. f_equal. f_equal.
    unfold replyRow, replyMsg. cbn [p_ts p_user p_text p_cursor].
    now rewrite ?append_assoc3.
  - rewrite map_app. cbn [List.map]. now rewrite append_empty_r.
Qed.

(** X16. In the tables that history and replies return, the cursor column
    is empty on every row but the last: for a target that resolves and a
    successful reply with at least one message, the text returned is the
    table of the messages with an empty cursor column (every such row ends
    with its last comma), followed at the very end by the next cursor of the
    reply when the reply says there is more (the empty string when it names
    none) and by nothing otherwise. A reply without messages gives the
    header alone. *)
Theorem cursor_only_on_last_row (cfg : Config) (c : Cache) (a : ToolArgs)
    (x y : string) (d : ApiData) (rest : list HttpResult) (lg : list Call) :
  a_channel_id a = Some x ->
  resolveChannelId c x = Ret y ->
  ok d = true ->
  let cur := if has_more d then Js.strOr (next_cursor d) "" else "" in
  let w := mkWorld (HttpReply d :: rest) lg in
  (forall init m,
      listOr (messages d) = (init ++ [m])%list ->
      fst (callTool cfg c "conversations_history" (Some a) w)
      = Ret (mkToolResult
               (historyCsv (List.map (historyMsg c) (init ++ [m])) ++ cur) false) /\
      fst (callTool cfg c "conversations_replies" (Some a) w)
      = Ret (mkToolResult
               (repliesCsv (List.map (replyMsg c) (init ++ [m])) ++ cur) false)) /\
  (listOr (messages d) = [] ->
   fst (callTool cfg c "conversations_history" (Some a) w)
   = Ret (mkToolResult "ts,user,text,thread_ts,reactions,cursor" false) /\
   fst (callTool cfg c "conversations_replies" (Some a) w)
   = Ret (mkToolResult "ts,user,text,cursor" false)) /\
  (forall m,
      (exists body, historyRow (historyMsg c m) = body ++ ",") /\
      (exists body, replyRow (replyMsg c m) = body ++ ",")).
Proof.
  intros Ha Hr Hok cur w. subst w.
  rewrite (history_answered cfg c a x y d rest lg Ha Hr Hok).
  rewrite (replies_answered cfg c a x y d rest lg Ha Hr Hok).
  cbn [fst]. split; [|split].
  - intros init m E. unfold historyCsv, repliesCsv. rewrite !join_lines.
    rewrite (historyMessages_snoc c d init m E).
    rewrite (replyMessages_snoc c d init m E).
    rewrite !linesAfter_snoc, !map_app, !append_assoc3. auto.
  - intros E. unfold historyMessages, replyMessages. rewrite E. auto.
  - intros m. split; eexists;
      unfold historyRow, replyRow, historyMsg, replyMsg;
      cbn [h_ts h_user h_text h_thread_ts h_reactions h_cursor
           p_ts p_user p_text p_cursor];
      rewrite <- !append_assoc3, append_empty_r; reflexivity.
Qed.

Lemma cursor_only_on_last_row_witness :
  let d :=
    mkApiData true None None None None (Some "next-1")
              (Some [mkRawMessage "1.0" (Some "U1") (Some "a") None None;
                     mkRawMessage "2.0" None (Some "b") None None])
              true None None None in
  fst (callTool (mkConfig false None) demoCache "conversations_replies"
                (Some (targetArgs "C100")) (mkWorld [HttpReply d] []))
  = Ret (mkToolResult
           ("ts,user,text,cursor" ++ nl ++ "1.0," ++ dq ++ "Alice A" ++ dq ++ ","
            ++ dq ++ "a" ++ dq ++ "," ++ nl ++ "2.0," ++ dq ++ dq ++ ","
            ++ dq ++ "b" ++ dq ++ "," ++ "next-1")
           false).
Proof.
  intros d.
  destruct (cursor_only_on_last_row (mkConfig false None) demoCache
              (targetArgs "C100") "C100" "C100" d [] []
              eq_refl eq_refl eq_refl) as (H & _).
  exact (proj2 (H [mkRawMessage "1.0" (Some "U1") (Some "a") None None]
                  (mkRawMessage "2.0" None (Some "b") None None) eq_refl)).
Defined.

(** * Direct messages that are reached *)

(** C1. The code reaches direct messages at three inputs.
    A channel whose record was delivered twice, first as [a] without flags
    and then as [b] flagged as a group direct message, is held flagged by
    the by-id table, and a request for [C1] is rejected; the by-name table
    still holds the first record under [#a], so a history request and a
    post for [#a] are sent to [C1] and answered with success content.
    A channel delivered without flags under the id [D1], which the prefix
    test classifies as a direct message, is listed, and a history request
    for its name [#x] is sent to [D1].
    A search whose channel filter is an id absent from the cache is sent
    without any channel clause, and a match the service returns from the
    direct message [D9] is rendered in the result. *)
Theorem direct_messages_reached :
  let msg := mkRawMessage "1.0" (Some "U7") (Some "hi") None None in
  let table := historyCsv [mkHistoryMsg "1.0" "U7" (Some "hi") None None ""] in
  (buildCache staleNameScript
   = (Ret staleNameCache,
      mkWorld [] [AuthTest;
                  ConversationsList "public_channel,private_channel" 1000 None;
                  ConversationsList "public_channel,private_channel" 1000
                                    (Some "p2");
                  UsersList 1000 None]) /\
   map_get "C1" (channelsById staleNameCache)
   = Some (mkChannel "C1" "#b" false false true None None None) /\
   targetBlocked staleNameCache "C1" = true /\
   isBlockedChannel staleNameCache "C1" None = true /\
   resolveChannelId staleNameCache "C1" = Throw Msg.dm_cached /\
   resolveChannelId staleNameCache "#a" = Ret "C1" /\
   callTool (mkConfig false None) staleNameCache "conversations_history"
            (Some (targetArgs "#a")) (mkWorld [messagesPage [msg]] [])
   = (Ret (mkToolResult table false),
      mkWorld [] [ConversationsHistory "C1" 50 None]) /\
   callTool (mkConfig true None) staleNameCache "conversations_add_message"
            (Some (targetArgs "#a")) (mkWorld [postedReply "9.9" "C1"] [])
   = (Ret (mkToolResult "Message posted: ts=9.9, channel=C1" false),
      mkWorld [] [ChatPostMessage "C1" (Some "hello") None])) /\
  (buildCache prefixScript
   = (Ret prefixCache,
      mkWorld [] [AuthTest;
                  ConversationsList "public_channel,private_channel" 1000 None;
                  UsersList 1000 None]) /\
   targetBlocked prefixCache "D1" = true /\
   isBlockedChannel prefixCache "D1" None = true /\
   resolveChannelId prefixCache "D1" = Throw Msg.dm_id /\
   resolveChannelId prefixCache "#x" = Ret "D1" /\
   callTool (mkConfig false None) prefixCache "channels_list" None (mkWorld [] [])
   = (Ret (mkToolResult
             (channelsCsv [mkChannel "D1" "#x" false false false None None None])
             false),
      mkWorld [] []) /\
   callTool (mkConfig false None) prefixCache "conversations_history"
            (Some (targetArgs "#x")) (mkWorld [messagesPage [msg]] [])
   = (Ret (mkToolResult table false),
      mkWorld [] [ConversationsHistory "D1" 50 None])) /\
  (targetBlocked demoCache "D9" = true /\
   resolveChannelId demoCache "C0NOTCACHED" = Ret "C0NOTCACHED" /\
   map_get "C0NOTCACHED" (channelsById demoCache) = None /\
   callTool (mkConfig false None) demoCache "conversations_search"
            (Some (searchArgs "secret" "C0NOTCACHED"))
            (mkWorld [matchesReply [mkRawMatch "5.0" (Some "D9") (Some "U2")
                                               (Some "U2") None
                                               (Some "the door code")]] [])
   = (Ret (mkToolResult
             (searchCsv [mkMatchMsg "5.0" "#U2" "U2" (Some "the door code")])
             false),
      mkWorld [] [SearchMessages (Some "secret") 20])).
Proof.
  intros msg table. split; [|split]; repeat split.
Qed.
